(** * Whisper feed: the confession service and its presentation helpers

    A shallow embedding of [server.ts] (the request handlers over the local
    SQLite table and over the hosted mirror table) and of the pure helpers of
    [src/App.tsx] (word highlighting, song link detection, category filter),
    with the properties of the written specification stated over them.

    Text.  A JavaScript string is a sequence of UTF-16 code units.  The
    development works with the code units U+0000..U+00FF: a [string] of
    8-bit characters, one character per code unit.  On that range
    [String.length] is the [length] property, and [toLowerCase], the [\s]
    class and the character classes of the two regular expressions are given
    exactly.

    Requests.  The JSON fields of a request body are typed as the client's
    [Confession] interface types them: text, or absent. *)

From stdpp Require Import base list strings sorting.
From Stdlib Require Import ZArith NArith Ascii.

Local Open Scope N_scope.

(** ** JavaScript text primitives *)

Module Js.

(** Code unit of a character. *)
Definition code (c : ascii) : N := N_of_ascii c.

Definition in_range (lo hi n : N) : bool := (lo <=? n) && (n <=? hi).

(** The regular expression class [\s] (WhiteSpace and LineTerminator of
    the language definition), below U+0100: TAB, LF, VT, FF, CR, SP and
    NBSP. *)
Definition isWhiteSpace (c : ascii) : bool :=
  let n := code c in in_range 9 13 n || (n =? 32) || (n =? 160).

(** Upper-case letters below U+0100: A..Z, and U+00C0..U+00DE without the
    multiplication sign U+00D7.  Each has its lower-case form 32 above. *)
Definition isUpper (c : ascii) : bool :=
  let n := code c in
  in_range 65 90 n || (in_range 192 222 n && negb (n =? 215)).

Definition lowerChar (c : ascii) : ascii :=
  if isUpper c then ascii_of_N (code c + 32) else c.

(** [String.prototype.toLowerCase] *)
Fixpoint toLowerCase (s : string) : string :=
  match s with
  | EmptyString => EmptyString
  | String c s' => String (lowerChar c) (toLowerCase s')
  end.

(** [s.replace(/[cls]/g, '')]: every character of the class is dropped. *)
Fixpoint removeAll (cls : ascii → bool) (s : string) : string :=
  match s with
  | EmptyString => EmptyString
  | String c s' => if cls c then removeAll cls s' else String c (removeAll cls s')
  end.

(** [a + b + ...] over a list of pieces. *)
Definition join (l : list string) : string := foldr String.app "" l.

(** The state of [split(/(\s+)/)] while it scans: in a word (between two
    separators) or inside a separator (a maximal run of white space). *)
Inductive scan := InWord | InSep.

(** [text.split(/(\s+)/)].  The separator has a capturing group, so every
    separator is itself an element of the result: the result alternates
    word, separator, word, ..., word, it starts and ends with a word, and
    a word is empty only before a leading or after a trailing separator.
    [piece] is the element being read. *)
Fixpoint split_scan (m : scan) (piece : string) (s : string) : list string :=
  match s with
  | EmptyString =>
      match m with
      | InWord => [piece]
      | InSep => [piece; ""]
      end
  | String c s' =>
      match m, isWhiteSpace c with
      | InWord, false => split_scan InWord (piece +:+ String c "") s'
      | InWord, true => piece :: split_scan InSep (String c "") s'
      | InSep, true => split_scan InSep (piece +:+ String c "") s'
      | InSep, false => piece :: split_scan InWord (String c "") s'
      end
  end.

Definition split_ws (s : string) : list string := split_scan InWord "" s.

(** Truthiness of a text-or-absent value: [undefined] and [''] are falsy. *)
Definition truthy (v : option string) : bool :=
  match v with
  | Some s => negb (String.eqb s "")
  | None => false
  end.

(** [v || d] for a text-or-absent [v] and a text default. *)
Definition or_text (v : option string) (d : string) : string :=
  match v with
  | Some s => if String.eqb s "" then d else s
  | None => d
  end.

(** [v || null] *)
Definition or_null (v : option string) : option string :=
  match v with
  | Some s => if String.eqb s "" then None else Some s
  | None => None
  end.

End Js.

(** ** The record shared by the store and by the client *)

(** A row of the [confessions] table, and the client's [Confession]
    interface.  [timestamp] is the instant the stored [CURRENT_TIMESTAMP]
    text denotes, in seconds; the four optional columns are [NULL] when
    [None]. *)
Record Confession := {
  id : Z;
  content : string;
  category : string;
  recipient : option string;
  sender : option string;
  feeling : option string;
  song : option string;
  timestamp : N;
  likes : Z
}.

(** ** Request and response bodies *)

(** Body of [POST /api/confessions]: each field is text or absent. *)
Record CreateBody := {
  b_content : option string;
  b_category : option string;
  b_recipient : option string;
  b_sender : option string;
  b_feeling : option string;
  b_song : option string
}.

(** A row of the hosted [Confession] table: its text and its [Like] count.
    A like count is a JavaScript number inside the safe integer range, where
    [+ 1] is exact. *)
Record Message := {
  msg_id : Z;
  msg_Confession : string;
  msg_Like : Z
}.

(** Body of [POST /api/supabase/messages/:id/like]. *)
Record LikeBody := { currentLikes : option Z }.

(** The JSON a handler answers with. *)
Inductive Body :=
| JError (error : string)
| JErrorHint (error hint : string)
| JId (id : Z)
| JSuccess
| JConfessions (records : list Confession)
| JMessages (records : list Message)
| JMessage (record : option Message).

Record Response := { status : N; body : Body }.

(** ** Presentation client ([src/App.tsx]) *)

Module App.

(** [SPECIAL_WORDS]: keyword and the class names it is drawn with. *)
Definition SPECIAL_WORDS : list (string * string) :=
  [ ("love", "text-pink-500 font-bold drop-shadow-sm");
    ("crush", "text-rose-400 font-bold italic");
    ("heart", "text-red-500 animate-pulse");
    ("forever", "text-indigo-400 italic underline decoration-wavy");
    ("miss", "text-blue-400");
    ("beautiful", "text-amber-500 font-serif italic");
    ("cute", "text-pink-300");
    ("smile", "text-yellow-500");
    ("asiet", "text-romantic-gold font-bold tracking-widest uppercase");
    ("secret", "bg-romantic-ink text-white px-1 rounded");
    ("dream", "text-purple-400 italic") ].

(** The own entry of a key in a table of text entries. *)
Fixpoint own_entry (table : list (string * string)) (key : string) : option string :=
  match table with
  | [] => None
  | (k, v) :: table' => if String.eqb k key then Some v else own_entry table' key
  end.

(** [SPECIAL_WORDS] is an object literal, so reading a key that is not an
    entry falls through to the members every object inherits. *)
Definition Object_prototype : list string :=
  [ "constructor"; "__proto__"; "hasOwnProperty"; "isPrototypeOf";
    "propertyIsEnumerable"; "toLocaleString"; "toString"; "valueOf";
    "__defineGetter__"; "__defineSetter__"; "__lookupGetter__";
    "__lookupSetter__" ].

(** What a property read yields: the text of an own entry, or an inherited
    member (a function or an object, never text). *)
Inductive PropValue :=
| PText (s : string)
| PInherited.

(** [SPECIAL_WORDS[key]]; [None] is [undefined]. *)
Definition SPECIAL_WORDS_at (key : string) : option PropValue :=
  match own_entry SPECIAL_WORDS key with
  | Some cls => Some (PText cls)
  | None => if bool_decide (key ∈ Object_prototype) then Some PInherited else None
  end.

Definition truthy_prop (v : option PropValue) : bool :=
  match v with
  | Some (PText s) => negb (String.eqb s "")
  | Some PInherited => true
  | None => false
  end.

(** The class [/[.,!?;:]/]. *)
Definition isPunct (c : ascii) : bool :=
  let n := Js.code c in
  (n =? 46) || (n =? 44) || (n =? 33) || (n =? 63) || (n =? 59) || (n =? 58).

(** A rendered [<span className=...>word</span>]; [className = None] is
    the span without the attribute. *)
Record Span := { className : option PropValue; children : string }.

Definition cleanWord (word : string) : string :=
  Js.removeAll isPunct (Js.toLowerCase word).

(** The callback of [words.map] in [HighlightedText]. *)
Definition renderWord (word : string) : Span :=
  let cleanWord := cleanWord word in
  if truthy_prop (SPECIAL_WORDS_at cleanWord)
  then {| className := SPECIAL_WORDS_at cleanWord; children := word |}
  else {| className := None; children := word |}.

Definition HighlightedText (text : string) : list Span :=
  let words := Js.split_ws text in
  map renderWord words.

(** The text a list of spans shows. *)
Definition textContent (spans : list Span) : string :=
  Js.join (map children spans).

(** *** The song cell *)

Definition isAlnum (c : ascii) : bool :=
  let n := Js.code c in
  Js.in_range 97 122 n || Js.in_range 65 90 n || Js.in_range 48 57 n.

(** [strip_prefix p s]: what follows [p] in [s], when [s] starts with [p]. *)
Fixpoint strip_prefix (p s : string) : option string :=
  match p, s with
  | EmptyString, _ => Some s
  | String a p', String b s' => if Ascii.eqb a b then strip_prefix p' s' else None
  | String _ _, EmptyString => None
  end.

(** The longest prefix of [s] inside a class (a greedy [[cls]*]). *)
Fixpoint takeWhile (cls : ascii → bool) (s : string) : string :=
  match s with
  | EmptyString => EmptyString
  | String c s' => if cls c then String c (takeWhile cls s') else EmptyString
  end.

(** One alternative of the first group, the slash and the second group:
    [kind\/([a-zA-Z0-9]+)] at the start of [s]. *)
Definition match_kind (kind s : string) : option (string * string) :=
  match strip_prefix (kind +:+ "/") s with
  | Some rest =>
      let ident := takeWhile isAlnum rest in
      if String.eqb ident "" then None else Some (kind, ident)
  | None => None
  end.

(** The alternatives of [(track|album|playlist)], tried in this order. *)
Definition kinds : list string := ["track"; "album"; "playlist"].

Fixpoint first_kind (ks : list string) (s : string) : option (string * string) :=
  match ks with
  | [] => None
  | k :: ks' =>
      match match_kind k s with
      | Some m => Some m
      | None => first_kind ks' s
      end
  end.

Definition prefix_literal : string := "https://open.spotify.com/".

(** [spotifyRegex] matched at the start of [s]: the two captured groups. *)
Definition match_here (s : string) : option (string * string) :=
  match strip_prefix prefix_literal s with
  | Some rest => first_kind kinds rest
  | None => None
  end.

(** [song.match(spotifyRegex)]: the pattern is not anchored, the leftmost
    position where it matches wins. *)
Fixpoint regex_match (s : string) : option (string * string) :=
  match match_here s with
  | Some m => Some m
  | None =>
      match s with
      | EmptyString => None
      | String _ s' => regex_match s'
      end
  end.

Definition hexDigit (n : N) : ascii :=
  if n <? 10 then ascii_of_N (48 + n) else ascii_of_N (55 + n).

Definition percent (byte : N) : string :=
  String "%" (String (hexDigit (byte / 16)) (String (hexDigit (byte mod 16)) "")).

(** Characters [encodeURIComponent] leaves alone: letters, digits and
    [- _ . ! ~ * ' ( )]. *)
Definition isUnreserved (c : ascii) : bool :=
  let n := Js.code c in
  isAlnum c || (n =? 45) || (n =? 95) || (n =? 46) || (n =? 33) || (n =? 126)
  || (n =? 42) || (n =? 39) || (n =? 40) || (n =? 41).

(** [encodeURIComponent]: every other code unit is written as the
    percent-escaped bytes of its UTF-8 form (one byte below U+0080, two
    from there to U+00FF). *)
Fixpoint encodeURIComponent (s : string) : string :=
  match s with
  | EmptyString => EmptyString
  | String c s' =>
      let n := Js.code c in
      (if isUnreserved c then String c ""
       else if n <? 128 then percent n
       else percent (192 + n / 64) +:+ percent (128 + n mod 64))
      +:+ encodeURIComponent s'
  end.

(** What [SpotifyPlayer] renders: the embedded player frame with its
    [src], or the card with the song text and a search link. *)
Inductive SongView :=
| EmbeddedPlayer (src : string)
| SearchLink (label : string) (href : string).

Definition SpotifyPlayer (song : string) : SongView :=
  match regex_match song with
  | Some (type, ident) =>
      EmbeddedPlayer ("https://open.spotify.com/embed/" +:+ type +:+ "/" +:+ ident
                      +:+ "?utm_source=generator&theme=0")
  | None =>
      SearchLink song ("https://open.spotify.com/search/" +:+ encodeURIComponent song)
  end.

(** *** The feed *)

(** [filteredConfessions], for the selected [filter]. *)
Definition filteredConfessions (filter : string) (confessions : list Confession)
  : list Confession :=
  if decide (filter = "All")
  then confessions
  else base.filter (λ c, category c = filter) confessions.

(** [handleSupabaseLike(msg.id, msg.Like)]: the request the client sends
    for a displayed mirror record, path identifier and JSON body. *)
Definition handleSupabaseLike (ident : Z) (currentLikes : Z) : Z * LikeBody :=
  (ident, {| currentLikes := Some currentLikes |}).

End App.

(** ** Confession service ([server.ts], local store) *)

Module Server.

(** The [confessions] table in row order, and the largest identifier
    [AUTOINCREMENT] has handed out ([sqlite_sequence]). *)
Record Store := { rows : list Confession; seq : Z }.

(** Whether the engine runs a prepared statement or throws (the [catch]
    branch of each handler). *)
Inductive Engine := Runs | Throws.

(** [ORDER BY timestamp DESC]: [a] may stand before [b]. *)
Definition newer_first (a b : Confession) : Prop := (timestamp b ≤ timestamp a)%N.

Global Instance newer_first_dec : RelDecision newer_first.
Proof. intros a b. unfold newer_first. apply _. Defined.

(** [SELECT * FROM confessions ORDER BY timestamp DESC LIMIT 50].  The
    order of rows of equal timestamp is the one this sort gives; the
    statement leaves it open. *)
Definition select_recent (st : Store) : list Confession :=
  take 50 (merge_sort newer_first (rows st)).

(** [app.get("/api/confessions")] *)
Definition get_confessions (e : Engine) (st : Store) : Response :=
  match e with
  | Runs => {| status := 200; body := JConfessions (select_recent st) |}
  | Throws => {| status := 500; body := JError "Failed to fetch confessions" |}
  end.

(** The identifier [AUTOINCREMENT] picks: one above every identifier in
    the table and every identifier handed out before. *)
Definition next_id (st : Store) : Z :=
  (foldr Z.max (seq st) (map id (rows st)) + 1)%Z.

(** [INSERT INTO confessions (content, category, recipient, sender,
    feeling, song) VALUES (?, ?, ?, ?, ?, ?)] at clock reading [now];
    [timestamp] and [likes] take their column defaults.  The result is the
    new store and [lastInsertRowid], or [None] when the statement throws. *)
Definition insert_confession (e : Engine) (now : N) (st : Store)
    (content category : string) (recipient sender feeling song : option string)
  : option (Store * Z) :=
  match e with
  | Runs =>
      let new := next_id st in
      let row := {| id := new; content := content; category := category;
                    recipient := recipient; sender := sender;
                    feeling := feeling; song := song;
                    timestamp := now; likes := 0 |} in
      Some ({| rows := rows st ++ [row]; seq := new |}, new)
  | Throws => None
  end.

Definition too_short : Response :=
  {| status := 400; body := JError "Confession too short" |}.

(** [app.post("/api/confessions")] *)
Definition post_confession (e : Engine) (now : N) (req : CreateBody) (st : Store)
  : Response * Store :=
  match b_content req with
  | None => (too_short, st)
  | Some content =>
      if String.eqb content "" || (String.length content <? 5)%nat
      then (too_short, st)
      else
        match insert_confession e now st content
                (Js.or_text (b_category req) "General")
                (Js.or_null (b_recipient req)) (Js.or_null (b_sender req))
                (Js.or_null (b_feeling req)) (Js.or_null (b_song req)) with
        | Some (st', new) => ({| status := 201; body := JId new |}, st')
        | None => ({| status := 500; body := JError "Failed to save confession" |}, st)
        end
  end.

Definition add_like (c : Confession) : Confession :=
  {| id := id c; content := content c; category := category c;
     recipient := recipient c; sender := sender c; feeling := feeling c;
     song := song c; timestamp := timestamp c; likes := (likes c + 1)%Z |}.

(** [UPDATE confessions SET likes = likes + 1 WHERE id = ?], for the
    integer the path parameter denotes. *)
Definition update_likes (e : Engine) (ident : Z) (st : Store) : option Store :=
  match e with
  | Runs =>
      Some {| rows := map (λ c, if (id c =? ident)%Z then add_like c else c) (rows st);
              seq := seq st |}
  | Throws => None
  end.

(** [app.post("/api/confessions/:id/like")] *)
Definition post_like (e : Engine) (ident : Z) (st : Store) : Response * Store :=
  match update_likes e ident st with
  | Some st' => ({| status := 200; body := JSuccess |}, st')
  | None => ({| status := 500; body := JError "Failed to like confession" |}, st)
  end.

End Server.

(** ** JavaScript numbers *)

Module Double.

(** A JavaScript number is an IEEE 754 double.  The numbers of the
    development are the doubles with an integer value, given by that value:
    every integer of magnitude up to [2^53], and beyond that the integers
    whose 53 leading binary digits hold all of them. *)
Definition limit : Z := 9007199254740992.

(** The double nearest to an integer (below the overflow threshold): the
    integer itself up to [2^53], else its 53 leading binary digits, rounded
    to nearest, a tie going to the even one. *)
Definition round (z : Z) : Z :=
  let a := Z.abs z in
  if (a <? limit)%Z then z
  else
    let e := (Z.log2 a - 52)%Z in
    let q := (a / 2 ^ e)%Z in
    let r := (a mod 2 ^ e)%Z in
    let half := (2 ^ (e - 1))%Z in
    let q' := if (r <? half)%Z then q
              else if (half <? r)%Z then (q + 1)%Z
              else if Z.even q then q else (q + 1)%Z in
    (Z.sgn z * (q' * 2 ^ e))%Z.

(** [a + b] on two such numbers. *)
Definition add (a b : Z) : Z := round (a + b).

(** [Number.isSafeInteger] *)
Definition safe (z : Z) : Prop := (- (limit - 1) ≤ z ≤ limit - 1)%Z.

End Double.

(** ** Mirror store adapter ([server.ts], hosted table) *)

Module Mirror.

(** [process.env]: a variable is unset, or set to a text. *)
Record Env := { SUPABASE_URL : option string; SUPABASE_ANON_KEY : option string }.

(** The client [createClient(url, key)] builds. *)
Record Client := { client_url : string; client_key : string }.

(** [getSupabase()]: [cached] is the module variable [supabaseClient]; the
    value returned is also the value the variable holds afterwards.  Here
    [createClient] builds the client it is asked for; the routes with a
    [createClient] that throws are in [Route] below. *)
Definition getSupabase (env : Env) (cached : option Client) : option Client :=
  match cached with
  | Some c => Some c
  | None =>
      match SUPABASE_URL env, SUPABASE_ANON_KEY env with
      | Some url, Some key =>
          if Js.truthy (Some url) && Js.truthy (Some key)
          then Some {| client_url := url; client_key := key |}
          else None
      | _, _ => None
      end
  end.

(** How the hosted service takes one call: it answers with data, it
    answers with an error payload, or the awaited call throws.  A request
    that fails on the network is an error payload ([Rejects]): the client
    library resolves with [{ error }] and does not throw.  [Raises] is
    there for the [catch] branch the handlers are written with; nothing
    below states that a call can take it. *)
Inductive Upstream :=
| Answers
| Rejects (message : string)
| Raises (message : string).

(** What an awaited query resolves to: [{ data, error }], or a throw. *)
Inductive Reply :=
| Resolved (data : option (list Message)) (error : option string)
| Thrown (message : string).

(** [supabase.from('Confession').select('*')] *)
Definition select_all (u : Upstream) (table : list Message) : Reply :=
  match u with
  | Answers => Resolved (Some table) None
  | Rejects m => Resolved None (Some m)
  | Raises m => Thrown m
  end.

Definition set_Like (v : Z) (m : Message) : Message :=
  {| msg_id := msg_id m; msg_Confession := msg_Confession m; msg_Like := v |}.

(** [supabase.from('Confession').update({ Like: v }).eq('id', ident).select()]:
    the reply (the rows written) and the table afterwards. *)
Definition update_Like (u : Upstream) (v : Z) (ident : Z) (table : list Message)
  : Reply * list Message :=
  match u with
  | Answers =>
      let hit m := msg_id m = ident in
      (Resolved (Some (map (set_Like v) (filter hit table))) None,
       map (λ m, if decide (hit m) then set_Like v m else m) table)
  | Rejects m => (Resolved None (Some m), table)
  | Raises m => (Thrown m, table)
  end.

(** The double quote character, which the hint text contains. *)
Definition dq : string := String (ascii_of_N 34) "".

Definition select_hint : string :=
  "Check if table " +:+ dq +:+ "Confession" +:+ dq +:+ " exists with columns "
  +:+ dq +:+ "Confession" +:+ dq +:+ " and " +:+ dq +:+ "Like" +:+ dq.

(** [app.get(['/api/supabase/messages', '/api/supabase/messages/'])]: the
    response and [supabaseClient] afterwards. *)
Definition get_messages (env : Env) (u : Upstream) (cached : option Client)
    (table : list Message) : Response * option Client :=
  let supabase := getSupabase env cached in
  match supabase with
  | None =>
      ({| status := 503; body := JError "Supabase credentials missing in Secrets tab" |},
       supabase)
  | Some _ =>
      match select_all u table with
      | Resolved _ (Some message) =>
          ({| status := 400; body := JErrorHint message select_hint |}, supabase)
      | Resolved data None =>
          ({| status := 200; body := JMessages (default [] data) |}, supabase)
      | Thrown message => ({| status := 500; body := JError message |}, supabase)
      end
  end.

(** [(currentLikes || 0) + 1], a sum of two numbers; the number of the
    request is the double its JSON text is read as. *)
Definition next_Like (currentLikes : option Z) : Z :=
  Double.add
    (match currentLikes with
     | Some n => if (Double.round n =? 0)%Z then 0 else Double.round n
     | None => 0
     end)%Z 1.

(** [app.post('/api/supabase/messages/:id/like')]: the response,
    [supabaseClient] and the hosted table afterwards. *)
Definition post_like (env : Env) (u : Upstream) (cached : option Client)
    (ident : Z) (req : LikeBody) (table : list Message)
  : Response * option Client * list Message :=
  let supabase := getSupabase env cached in
  match supabase with
  | None => ({| status := 503; body := JError "Supabase not configured" |}, supabase, table)
  | Some _ =>
      match update_Like u (next_Like (currentLikes req)) ident table with
      | (Resolved _ (Some message), table') =>
          ({| status := 400; body := JError message |}, supabase, table')
      | (Resolved (Some data) None, table') =>
          ({| status := 200; body := JMessage (head data) |}, supabase, table')
      | (Resolved None None, table') =>
          ({| status := 500; body := JError "Cannot read properties of null (reading '0')" |},
           supabase, table')
      | (Thrown message, table') =>
          ({| status := 500; body := JError message |}, supabase, table')
      end
  end.

End Mirror.

(** ** The mirror routes, with the construction of the client *)

Module Route.

(** What [createClient(url, key)] does with the credentials of the
    environment: it builds the client, or it throws (as it does for a URL
    that is no address, such as ["not a url"]). *)
Inductive Create := Builds | CreateThrows.

(** What a request gets: what the handler sends, or [Threw] when the
    handler throws before it answers.  [getSupabase()] is called outside
    the [try] of every route, so a throw of [createClient] is not caught:
    the request gets none of the responses of the handler, and
    [supabaseClient] stays empty. *)
Inductive Outcome (A : Type) :=
| Sent (a : A)
| Threw.

Arguments Sent {A} a.
Arguments Threw {A}.

(** Whether [getSupabase()] calls [createClient]: no client is held and
    both variables are set. *)
Definition creates (env : Mirror.Env) (cached : option Mirror.Client) : bool :=
  match cached with
  | Some _ => false
  | None => Js.truthy (Mirror.SUPABASE_URL env) && Js.truthy (Mirror.SUPABASE_ANON_KEY env)
  end.

(** A handler that starts with [getSupabase()]. *)
Definition through {A : Type} (k : Create) (env : Mirror.Env)
    (cached : option Mirror.Client) (handler : A) : Outcome A :=
  match k with
  | Builds => Sent handler
  | CreateThrows => if creates env cached then Threw else Sent handler
  end.

(** [GET /api/supabase/messages] *)
Definition get_messages (k : Create) (env : Mirror.Env) (u : Mirror.Upstream)
    (cached : option Mirror.Client) (table : list Message)
  : Outcome (Response * option Mirror.Client) :=
  through k env cached (Mirror.get_messages env u cached table).

(** [POST /api/supabase/messages/:id/like] *)
Definition post_like (k : Create) (env : Mirror.Env) (u : Mirror.Upstream)
    (cached : option Mirror.Client) (ident : Z) (req : LikeBody) (table : list Message)
  : Outcome (Response * option Mirror.Client * list Message) :=
  through k env cached (Mirror.post_like env u cached ident req table).

End Route.

(** ** The wording of the specification

    Definitions that follow the written specification, to be compared with
    the ones above, and the predicates the properties are stated with. *)

Module Written.

(** A text with its trailing characters of a class stripped. *)
Fixpoint stripTrailing (cls : ascii → bool) (s : string) : string :=
  match s with
  | EmptyString => EmptyString
  | String c s' =>
      let rest := stripTrailing cls s' in
      if String.eqb rest "" && cls c then EmptyString else String c rest
  end.

(** The lookup key as written: trailing punctuation stripped, lower case. *)
Definition lookup_key (token : string) : string :=
  stripTrailing App.isPunct (Js.toLowerCase token).

(** Highlighting as written: a token is styled exactly when its lookup key
    is a keyword of the fixed set. *)
Definition HighlightedText (text : string) : list App.Span :=
  map (λ token,
         {| App.className := App.PText <$> App.own_entry App.SPECIAL_WORDS (lookup_key token);
            App.children := token |})
      (Js.split_ws text).

Fixpoint every (cls : ascii → bool) (s : string) : bool :=
  match s with
  | EmptyString => true
  | String c s' => cls c && every cls s'
  end.

(** The link pattern: somewhere in the text, the address of the music
    service, then a track, album or playlist resource and a non-empty
    identifier of letters and digits. *)
Definition link_pattern (song : string) : Prop :=
  ∃ before kind ident after,
    song = before +:+ App.prefix_literal +:+ kind +:+ "/" +:+ ident +:+ after
    ∧ kind ∈ App.kinds ∧ ident ≠ "" ∧ every App.isAlnum ident = true.

(** A create request with each optional field that is the empty text left
    out instead. *)
Definition omit_blank (req : CreateBody) : CreateBody :=
  let omit v := match v with Some "" => None | _ => v end in
  {| b_content := b_content req;
     b_category := omit (b_category req);
     b_recipient := omit (b_recipient req);
     b_sender := omit (b_sender req);
     b_feeling := omit (b_feeling req);
     b_song := omit (b_song req) |}.

(** Two records that agree on every field but [likes]. *)
Definition same_but_likes (c c' : Confession) : Prop :=
  id c' = id c ∧ content c' = content c ∧ category c' = category c
  ∧ recipient c' = recipient c ∧ sender c' = sender c
  ∧ feeling c' = feeling c ∧ song c' = song c ∧ timestamp c' = timestamp c.

(** The records a response carries. *)
Definition records (r : Response) : list Confession :=
  match body r with
  | JConfessions l => l
  | _ => []
  end.

(** Both connection credentials are set, to a non-empty text. *)
Definition credentials_present (env : Mirror.Env) : Prop :=
  Js.truthy (Mirror.SUPABASE_URL env) = true
  ∧ Js.truthy (Mirror.SUPABASE_ANON_KEY env) = true.

(** The environment is read when the process starts and stays as it is: a
    client is only ever held when the credentials are there. *)
Definition cache_ok (env : Mirror.Env) (cached : option Mirror.Client) : Prop :=
  is_Some cached → credentials_present env.



End Written.

(** ** Startup: the table and its migrations ([server.ts]) *)

Module Startup.

(** The columns of [CREATE TABLE IF NOT EXISTS confessions]. *)
Definition base_columns : list string :=
  ["id"; "content"; "category"; "timestamp"; "likes"].

(** The table as the process finds it: [None] when the database has no
    [confessions] table, else its column names in order
    ([PRAGMA table_info]). *)
Definition create_table (found : option (list string)) : list string :=
  match found with
  | Some cols => cols
  | None => base_columns
  end.

(** SQLite compares column names without regard to the case of A..Z. *)
Definition foldChar (c : ascii) : ascii :=
  if Js.in_range 65 90 (Js.code c) then ascii_of_N (Js.code c + 32) else c.

Fixpoint nocase (s : string) : string :=
  match s with
  | EmptyString => EmptyString
  | String c s' => String (foldChar c) (nocase s')
  end.

(** [ALTER TABLE confessions ADD COLUMN name TEXT]: the column goes last;
    the statement throws when the table has a column of that name. *)
Definition add_column (name : string) (cols : list string) : option (list string) :=
  if bool_decide (nocase name ∈ map nocase cols) then None else Some (cols ++ [name]).

(** [if (!columnNames.includes(name)) db.exec(ALTER ...)], after the
    statements before it. *)
Definition migrate (columnNames : list string) (name : string)
    (table : option (list string)) : option (list string) :=
  match table with
  | Some cols => if bool_decide (name ∈ columnNames) then Some cols else add_column name cols
  | None => None
  end.

(** The statements the module runs when it is loaded; [None] when one of
    them throws. *)
Definition startup (found : option (list string)) : option (list string) :=
  let table := create_table found in
  let columnNames := table in
  migrate columnNames "song"
    (migrate columnNames "feeling"
       (migrate columnNames "sender"
          (migrate columnNames "recipient" (Some table)))).

Definition added_columns : list string := ["recipient"; "sender"; "feeling"; "song"].

(** No column of the table is one of the added names written in another
    letter case. *)
Definition no_case_variant (cols : list string) : Prop :=
  ∀ c name, c ∈ cols → name ∈ added_columns → nocase c = nocase name → c = name.

End Startup.

(** ** The confession service over a sequence of requests *)

Module Service.

Inductive Request :=
| ListRecent (e : Server.Engine)
| Create (e : Server.Engine) (now : N) (req : CreateBody)
| Like (e : Server.Engine) (ident : Z).

Definition handle (r : Request) (st : Server.Store) : Response * Server.Store :=
  match r with
  | ListRecent e => (Server.get_confessions e st, st)
  | Create e now req => Server.post_confession e now req st
  | Like e ident => Server.post_like e ident st
  end.

(** The store after the requests, served one after the other. *)
Definition run (rs : list Request) (st : Server.Store) : Server.Store :=
  foldl (λ st r, (handle r st).2) st rs.




(** The sum of the like counters of a list of records. *)
Definition total_likes (l : list Confession) : Z := foldr (λ c n, (likes c + n)%Z) 0%Z l.

End Service.

(** ** The feed on the client ([src/App.tsx]) *)

Module Feed.

(** [res.ok] *)
Definition res_ok (r : Response) : bool := (200 <=? status r) && (status r <=? 299).

(** The callback of [prev.map] in [handleLike]:
    [c.id === id ? { ...c, likes: c.likes + 1 } : c]. *)
Definition liked (ident : Z) (c : Confession) : Confession :=
  if decide (id c = ident) then Server.add_like c else c.

(** [handleLike]: [res] is the response of the like request, [None] when
    the fetch fails; the result is the [confessions] state afterwards. *)
Definition handleLike (res : option Response) (ident : Z) (confessions : list Confession)
  : list Confession :=
  match res with
  | Some r => if res_ok r then map (liked ident) confessions else confessions
  | None => confessions
  end.

(** [{confession.song && <SpotifyPlayer song={confession.song} />}] *)
Definition songCell (c : Confession) : option App.SongView :=
  match song c with
  | Some s => if Js.truthy (Some s) then Some (App.SpotifyPlayer s) else None
  | None => None
  end.

(** What the model call comes back with: a response and its [text], or a
    throw. *)
Inductive Generated :=
| Text (text : option string)
| GenerateThrows.

Definition newline : string := String (ascii_of_N 10) "".

(** The [contents] of the model call: the instruction and one line for each
    of the first ten confessions. *)
Definition mood_prompt (confessions : list Confession) : string :=
  "Based on these anonymous confessions from students at ASIET, summarize the current "
  +:+ Mirror.dq +:+ "Campus Mood" +:+ Mirror.dq
  +:+ " in 2-3 sentences. Be empathetic and insightful. " +:+ newline
  +:+ "        " +:+ newline
  +:+ "        Confessions:" +:+ newline
  +:+ "        "
  +:+ String.concat newline
        (map (λ c, "- [" +:+ category c +:+ "] " +:+ content c) (take 10 confessions)).

(** [analyzeMood]: the prompt sent, if any, and [campusMood] afterwards. *)
Definition analyzeMood (g : Generated) (confessions : list Confession)
    (campusMood : option string) : option string * option string :=
  match confessions with
  | [] => (None, campusMood)
  | _ :: _ =>
      (Some (mood_prompt confessions),
       match g with
       | Text text => Some (Js.or_text text "The campus is quiet today.")
       | GenerateThrows => Some "Unable to sense the mood right now."
       end)
  end.

End Feed.

(** ** The composer on the client ([src/App.tsx]) *)

Module Composer.

Inductive ViewMode := local | supabase.

(** The state the form keeps. *)
Record Form := {
  newConfession : string;
  to_recipient : string;
  from_sender : string;
  with_feeling : string;
  with_song : string;
  selectedCategory : string;
  viewMode : ViewMode
}.

(** [trimStart]: leading white space dropped. *)
Fixpoint trimStart (s : string) : string :=
  match s with
  | EmptyString => EmptyString
  | String c s' => if Js.isWhiteSpace c then trimStart s' else s
  end.

(** [String.prototype.trim] *)
Definition trim (s : string) : string :=
  Written.stripTrailing Js.isWhiteSpace (trimStart s).

(** The request [handleSubmit] sends. *)
Inductive Outgoing :=
| NoRequest
| PostMessage (msg : string)
| PostConfession (body : CreateBody).

Definition handleSubmit (f : Form) : Outgoing :=
  if String.eqb (trim (newConfession f)) "" || (String.length (newConfession f) <? 5)%nat
  then NoRequest
  else
    match viewMode f with
    | supabase => PostMessage (newConfession f)
    | local =>
        PostConfession
          {| b_content := Some (newConfession f);
             b_category := Some (selectedCategory f);
             b_recipient := Some (to_recipient f);
             b_sender := Some (from_sender f);
             b_feeling := Some (with_feeling f);
             b_song := Some (with_song f) |}
    end.

(** The form after the response of a request that was sent: on [res.ok] the
    text is cleared, and in the local view the recipient, sender and song
    too. *)
Definition afterSubmit (res : Response) (f : Form) : Form :=
  if Feed.res_ok res
  then
    match viewMode f with
    | supabase =>
        {| newConfession := ""; to_recipient := to_recipient f;
           from_sender := from_sender f; with_feeling := with_feeling f;
           with_song := with_song f; selectedCategory := selectedCategory f;
           viewMode := viewMode f |}
    | local =>
        {| newConfession := ""; to_recipient := ""; from_sender := "";
           with_feeling := with_feeling f; with_song := "";
           selectedCategory := selectedCategory f; viewMode := viewMode f |}
    end
  else f.

(** [disabled={isSubmitting || newConfession.length < 5}] of the button. *)
Definition submitDisabled (isSubmitting : bool) (f : Form) : bool :=
  isSubmitting || (String.length (newConfession f) <? 5)%nat.

End Composer.

(** ** The mirror: status, create, and the client's fetch *)

Module MirrorMore.

(** The body of [GET /api/supabase/status]. *)
Record Status := { configured : bool; url : string; key : string }.

(** [app.get('/api/supabase/status')]: the body and [supabaseClient]
    afterwards. *)
Definition get_status (env : Mirror.Env) (cached : option Mirror.Client)
  : Status * option Mirror.Client :=
  let supabase := Mirror.getSupabase env cached in
  ({| configured := bool_decide (is_Some supabase);
      url := if Js.truthy (Mirror.SUPABASE_URL env) then "Set" else "Missing";
      key := if Js.truthy (Mirror.SUPABASE_ANON_KEY env) then "Set" else "Missing" |},
   supabase).

(** [supabase.from('Confession').insert([{ Confession: msg, Like: 0 }]).select()]:
    the service gives the new row the identifier [fresh]. *)
Definition insert_message (u : Mirror.Upstream) (fresh : Z) (msg : string)
    (table : list Message) : Mirror.Reply * list Message :=
  match u with
  | Mirror.Answers =>
      let row := {| msg_id := fresh; msg_Confession := msg; msg_Like := 0 |} in
      (Mirror.Resolved (Some [row]) None, table ++ [row])
  | Mirror.Rejects m => (Mirror.Resolved None (Some m), table)
  | Mirror.Raises m => (Mirror.Thrown m, table)
  end.

(** [app.post('/api/supabase/messages')] *)
Definition post_message (env : Mirror.Env) (u : Mirror.Upstream)
    (cached : option Mirror.Client) (fresh : Z) (msg : string) (table : list Message)
  : Response * option Mirror.Client * list Message :=
  let supabase := Mirror.getSupabase env cached in
  match supabase with
  | None => ({| status := 503; body := JError "Supabase not configured" |}, supabase, table)
  | Some _ =>
      match insert_message u fresh msg table with
      | (Mirror.Resolved _ (Some message), table') =>
          ({| status := 400; body := JError message |}, supabase, table')
      | (Mirror.Resolved (Some data) None, table') =>
          ({| status := 201; body := JMessage (head data) |}, supabase, table')
      | (Mirror.Resolved None None, table') =>
          ({| status := 500; body := JError "Cannot read properties of null (reading '0')" |},
           supabase, table')
      | (Mirror.Thrown message, table') =>
          ({| status := 500; body := JError message |}, supabase, table')
      end
  end.

(** [data.error] of a parsed body. *)
Definition json_error (b : Body) : option string :=
  match b with
  | JError e => Some e
  | JErrorHint e _ => Some e
  | _ => None
  end.

(** The two pieces of state [fetchSupabaseMessages] sets: the parsed body
    kept in [supabaseMessages], and [supabaseError]. *)
Record View := { supabaseMessages : Body; supabaseError : option string }.

(** [fetchSupabaseMessages]: [res] is the response, which is JSON, or [None]
    when the fetch fails. *)
Definition fetchSupabaseMessages (res : option Response) (v : View) : View :=
  match res with
  | Some r =>
      if Feed.res_ok r
      then {| supabaseMessages := body r; supabaseError := None |}
      else {| supabaseMessages := supabaseMessages v;
              supabaseError :=
                Some (Js.or_text (json_error (body r)) "Failed to fetch messages") |}
  | None =>
      {| supabaseMessages := supabaseMessages v;
         supabaseError := Some "Network error connecting to server" |}
  end.

(** [GET /api/supabase/status], with the construction of the client.  The
    handler is synchronous: when it throws, the request is answered by the
    error page of the framework, not by the handler. *)
Definition status_route (k : Route.Create) (env : Mirror.Env)
    (cached : option Mirror.Client) : Route.Outcome (Status * option Mirror.Client) :=
  Route.through k env cached (get_status env cached).

(** [POST /api/supabase/messages], with the construction of the client. *)
Definition create_route (k : Route.Create) (env : Mirror.Env) (u : Mirror.Upstream)
    (cached : option Mirror.Client) (fresh : Z) (msg : string) (table : list Message)
  : Route.Outcome (Response * option Mirror.Client * list Message) :=
  Route.through k env cached (post_message env u cached fresh msg table).

End MirrorMore.

(** ** The music service bridge ([server.ts]) *)

Module Auth.

Record Env := {
  SPOTIFY_CLIENT_ID : option string;
  SPOTIFY_CLIENT_SECRET : option string;
  APP_URL : option string
}.

(** [`${v}`] of an environment variable. *)
Definition template (v : option string) : string :=
  match v with
  | Some s => s
  | None => "undefined"
  end.

Definition redirect_uri (env : Env) : string :=
  template (APP_URL env) +:+ "/auth/spotify/callback".

Definition scope : string := "user-top-read user-read-private user-read-email".

(** Characters the form serializer writes as they are: letters, digits and
    [* - . _]. *)
Definition isFormSafe (c : ascii) : bool :=
  let n := Js.code c in
  App.isAlnum c || (n =? 42) || (n =? 45) || (n =? 46) || (n =? 95).

(** The serializer of [URLSearchParams]: a space becomes [+], every other
    code unit outside the safe set the percent-escaped bytes of its UTF-8
    form. *)
Fixpoint formEncode (s : string) : string :=
  match s with
  | EmptyString => EmptyString
  | String c s' =>
      let n := Js.code c in
      (if isFormSafe c then String c ""
       else if n =? 32 then "+"
       else if n <? 128 then App.percent n
       else App.percent (192 + n / 64) +:+ App.percent (128 + n mod 64))
      +:+ formEncode s'
  end.

Definition pair (p : string * string) : string := formEncode p.1 +:+ "=" +:+ formEncode p.2.

(** [params.toString()] *)
Definition toString (params : list (string * string)) : string :=
  String.concat "&" (map pair params).

(** The parameters of the authorization request. *)
Definition params (env : Env) : list (string * string) :=
  [ ("response_type", "code");
    ("client_id", Js.or_text (SPOTIFY_CLIENT_ID env) "");
    ("scope", scope);
    ("redirect_uri", redirect_uri env) ].

(** The [url] of [app.get('/api/auth/spotify/url')]. *)
Definition authorize_url (env : Env) : string :=
  "https://accounts.spotify.com/authorize?" +:+ toString (params env).

(** The characters that give an address its structure. *)
Definition structural (c : ascii) : bool :=
  bool_decide (c ∈ ["&"; "="; "?"; "#"; " "; "/"; ":"]%char).

(** What a handler of the bridge answers with. *)
Inductive Payload :=
| Url (url : string)
| SuccessPage
| Plain (text : string)
| ErrorJson (error : string)
| Forwarded (data : string)
| Connected (connected : bool).

(** The token exchange: the parsed answer with its [access_token], or a
    throw. *)
Inductive Exchange :=
| Answered (access_token : option string)
| ExchangeThrows.

(** The session: [spotify_token]. *)
Definition Session := option string.

(** [app.get('/auth/spotify/callback')] *)
Definition callback (x : Exchange) (session : Session) : N * Payload * Session :=
  match x with
  | Answered access_token =>
      if Js.truthy access_token
      then (200, SuccessPage, access_token)
      else (400, Plain "Failed to get access token", session)
  | ExchangeThrows => (500, Plain "Internal Server Error", session)
  end.

(** The call to the music service: its parsed answer, or a throw. *)
Inductive Tracks :=
| Data (data : string)
| TracksThrows.

(** [app.get('/api/spotify/me/top-tracks')] *)
Definition top_tracks (t : Tracks) (session : Session) : N * Payload :=
  if Js.truthy session
  then
    match t with
    | Data data => (200, Forwarded data)
    | TracksThrows => (500, ErrorJson "Failed to fetch top tracks")
    end
  else (401, ErrorJson "Not authenticated with Spotify").

(** [app.get('/api/auth/spotify/status')] *)
Definition auth_status (session : Session) : N * Payload :=
  (200, Connected (Js.truthy session)).

Inductive Call :=
| GetUrl
| Callback (x : Exchange)
| TopTracks (t : Tracks)
| GetStatus.

Definition serve (env : Env) (c : Call) (session : Session) : N * Payload * Session :=
  match c with
  | GetUrl => (200, Url (authorize_url env), session)
  | Callback x => callback x session
  | TopTracks t => (top_tracks t session, session)
  | GetStatus => (auth_status session, session)
  end.

(** [secure: true] of [cookieSession]. *)
Definition cookie_secure : bool := true.

(** Whether the connection of a request is encrypted: [app.listen] opens a
    plain HTTP listener, and the application does not trust a proxy. *)
Definition connection_encrypted : bool := false.

(** The session cookie the response sets, for a session the handler left as
    [session]: a secure cookie is not sent over a connection that is not
    encrypted, and the failed save is skipped. *)
Definition set_cookie (session : Session) : option Session :=
  if cookie_secure && negb connection_encrypted then None else Some session.

(** One call of a client that holds the session cookie [jar]: the request
    carries the cookie, and the client keeps the cookie the response sets,
    if it sets one. *)
Definition call (env : Env) (jar : Session) (c : Call) : Session :=
  match set_cookie (serve env c jar).2 with
  | Some cookie => cookie
  | None => jar
  end.

(** The cookie of the client after the calls, made one after the other. *)
Definition after (env : Env) (cs : list Call) (jar : Session) : Session :=
  foldl (call env) jar cs.

End Auth.

(** ** Percent escapes read back *)

Module Unescape.

(** The value of a hexadecimal digit. *)
Definition hexValue (c : ascii) : option N :=
  let n := Js.code c in
  if Js.in_range 48 57 n then Some (n - 48)
  else if Js.in_range 65 70 n then Some (n - 55)
  else None.

Definition byte (h l : ascii) : option N :=
  match hexValue h, hexValue l with
  | Some a, Some b => Some (16 * a + b)
  | _, _ => None
  end.

(** The text whose escaped form is [s]: an escape below [%80] is one
    character, a pair of escapes is the character of the two-byte form;
    [None] when [s] is no escaped form of a text. *)
Fixpoint unescape (s : string) : option string :=
  match s with
  | EmptyString => Some EmptyString
  | String "%" (String h (String l rest)) =>
      match byte h l with
      | Some b =>
          if b <? 128 then String (ascii_of_N b) <$> unescape rest
          else
            match rest with
            | String "%" (String h2 (String l2 rest')) =>
                match byte h2 l2 with
                | Some b2 =>
                    String (ascii_of_N ((b - 192) * 64 + (b2 - 128))) <$> unescape rest'
                | None => None
                end
            | _ => None
            end
      | None => None
      end
  | String c rest => String c <$> unescape rest
  end.

(** How many times a character stands in a text. *)
Fixpoint occurrences (c : ascii) (s : string) : nat :=
  match s with
  | EmptyString => 0
  | String d s' => (if Ascii.eqb c d then 1 else 0) + occurrences c s'
  end.

End Unescape.

(** ** The shape of a split *)

Module Shape.

(** The pieces of a split, read from a word ([InWord]) or from a separator
    ([InSep]) on: a word has no white space, a separator is a non-empty run
    of white space, the two alternate, and the last piece is a word. *)
Fixpoint pieces_ok (m : Js.scan) (pieces : list string) : bool :=
  match pieces with
  | [] => match m with Js.InSep => true | Js.InWord => false end
  | p :: pieces' =>
      match m with
      | Js.InWord =>
          Written.every (λ c, negb (Js.isWhiteSpace c)) p && pieces_ok Js.InSep pieces'
      | Js.InSep =>
          negb (String.eqb p "") && Written.every Js.isWhiteSpace p
          && pieces_ok Js.InWord pieces'
      end
  end.

End Shape.

(** ** Sample data *)

Module Sample.

Definition feed : list Confession :=
  [ {| id := 3; content := "I miss you so much"; category := "Love";
       recipient := None; sender := None; feeling := None; song := None;
       timestamp := 30; likes := 2 |};
    {| id := 2; content := "Exams are too close"; category := "Academic";
       recipient := None; sender := None; feeling := None; song := None;
       timestamp := 20; likes := 0 |};
    {| id := 1; content := "My crush smiled at me"; category := "Love";
       recipient := Some "A"; sender := None; feeling := None; song := None;
       timestamp := 10; likes := 5 |} ].

(** A store holding the sample feed in insertion order. *)
Definition store : Server.Store := {| Server.rows := reverse feed; Server.seq := 3 |}.

Definition empty : Server.Store := {| Server.rows := []; Server.seq := 0 |}.

Definition body_of (content : option string) (blank : option string) : CreateBody :=
  {| b_content := content; b_category := blank; b_recipient := blank;
     b_sender := blank; b_feeling := blank; b_song := blank |}.

(** The create request of the specification's example. *)
Definition miss_you : CreateBody :=
  {| b_content := Some "I miss you so much"; b_category := Some "Love";
     b_recipient := None; b_sender := None; b_feeling := None; b_song := None |}.

Definition env : Mirror.Env :=
  {| Mirror.SUPABASE_URL := Some "https://example.supabase.co";
     Mirror.SUPABASE_ANON_KEY := Some "anon-key" |}.

Definition no_env : Mirror.Env :=
  {| Mirror.SUPABASE_URL := None; Mirror.SUPABASE_ANON_KEY := None |}.

Definition messages : list Message :=
  [ {| msg_id := 1; msg_Confession := "first whisper"; msg_Like := 4 |};
    {| msg_id := 2; msg_Confession := "second whisper"; msg_Like := 0 |} ].

End Sample.

(** ** Sample forms and sessions *)

Module Case.

Definition form : Composer.Form :=
  {| Composer.newConfession := "I miss you so much";
     Composer.to_recipient := "";
     Composer.from_sender := "me";
     Composer.with_feeling := "Happy";
     Composer.with_song := "https://open.spotify.com/track/abc123";
     Composer.selectedCategory := "Love";
     Composer.viewMode := Composer.local |}.

Definition blank_form : Composer.Form :=
  {| Composer.newConfession := "      ";
     Composer.to_recipient := "";
     Composer.from_sender := "";
     Composer.with_feeling := "Happy";
     Composer.with_song := "";
     Composer.selectedCategory := "General";
     Composer.viewMode := Composer.local |}.

Definition bad_url_env : Mirror.Env :=
  {| Mirror.SUPABASE_URL := Some "not a url";
     Mirror.SUPABASE_ANON_KEY := Some "anon-key" |}.

Definition auth_env : Auth.Env :=
  {| Auth.SPOTIFY_CLIENT_ID := Some "client&id=1";
     Auth.SPOTIFY_CLIENT_SECRET := Some "secret";
     Auth.APP_URL := Some "https://whisper.example" |}.

End Case.

(** * Properties *)

(** ** Text *)

Section text_facts.

Implicit Types (s t u : string) (c : ascii).

Lemma app_cons c s t : String c s +:+ t = String c (s +:+ t).
Proof. reflexivity. Qed.

Lemma app_empty_l s : "" +:+ s = s.
Proof. reflexivity. Qed.

Lemma app_empty_r s : s +:+ "" = s.
Proof. induction s as [|c s IH]; [done | by rewrite app_cons, IH]. Qed.

Lemma app_assoc_str s t u : (s +:+ t) +:+ u = s +:+ (t +:+ u).
Proof. induction s as [|c s IH]; [done | by rewrite !app_cons, IH]. Qed.

Lemma app_snoc s c t : (s +:+ String c "") +:+ t = s +:+ String c t.
Proof. by rewrite app_assoc_str. Qed.

Lemma join_cons piece pieces : Js.join (piece :: pieces) = piece +:+ Js.join pieces.
Proof. reflexivity. Qed.

(** Scanning gives back the piece being read followed by the text still to
    read, whatever the state. *)
Lemma join_split_scan m piece s :
  Js.join (Js.split_scan m piece s) = piece +:+ s.
Proof.
  revert m piece. induction s as [|c s IH]; intros m piece.
  - destruct m; simpl; rewrite ?join_cons; unfold Js.join; simpl;
      by rewrite ?app_empty_r.
  - destruct m; simpl; destruct (Js.isWhiteSpace c);
      rewrite ?join_cons, IH; by rewrite ?app_snoc.
Qed.

Lemma join_split_ws s : Js.join (Js.split_ws s) = s.
Proof. unfold Js.split_ws. by rewrite join_split_scan. Qed.

(** A run of characters of one kind only extends the piece being read. *)
Lemma split_scan_word piece w s :
  Written.every (λ c, negb (Js.isWhiteSpace c)) w = true →
  Js.split_scan Js.InWord piece (w +:+ s) = Js.split_scan Js.InWord (piece +:+ w) s.
Proof.
  revert piece. induction w as [|c w IH]; intros piece Hall.
  - by rewrite app_empty_l, app_empty_r.
  - simpl in Hall. apply andb_prop in Hall as [Hc Hw].
    rewrite app_cons. simpl.
    apply negb_true_iff in Hc. rewrite Hc, IH by done. by rewrite app_snoc.
Qed.

Lemma split_scan_sep piece sep s :
  Written.every Js.isWhiteSpace sep = true →
  Js.split_scan Js.InSep piece (sep +:+ s) = Js.split_scan Js.InSep (piece +:+ sep) s.
Proof.
  revert piece. induction sep as [|c sep IH]; intros piece Hall.
  - by rewrite app_empty_l, app_empty_r.
  - simpl in Hall. apply andb_prop in Hall as [Hc Hsep].
    rewrite app_cons. simpl.
    rewrite Hc, IH by done. by rewrite app_snoc.
Qed.

(** A text without white space is a single word. *)
Lemma split_ws_word w :
  Written.every (λ c, negb (Js.isWhiteSpace c)) w = true → Js.split_ws w = [w].
Proof.
  intros Hw. unfold Js.split_ws.
  rewrite <- (app_empty_r w), split_scan_word by done. by rewrite app_empty_r.
Qed.

(** One turn of the split: a word without white space, then a maximal run of
    white space, then the split of what follows. *)
Lemma split_ws_step w sep rest :
  Written.every (λ c, negb (Js.isWhiteSpace c)) w = true →
  sep ≠ "" → Written.every Js.isWhiteSpace sep = true →
  (∀ c rest', rest = String c rest' → Js.isWhiteSpace c = false) →
  Js.split_ws (w +:+ sep +:+ rest) = w :: sep :: Js.split_ws rest.
Proof.
  intros Hw Hne Hsep Hrest. unfold Js.split_ws.
  rewrite split_scan_word, app_empty_l by done.
  destruct sep as [|c sep]; [done|].
  simpl in Hsep. apply andb_prop in Hsep as [Hc Hsep].
  rewrite app_cons. simpl. rewrite Hc. f_equal.
  rewrite split_scan_sep by done.
  change (String c "" +:+ sep) with (String c sep).
  destruct rest as [|d rest]; simpl; [done|].
  by rewrite (Hrest d rest eq_refl).
Qed.

(** Lower-casing is idempotent. *)
Lemma lowerChar_idemp c : Js.lowerChar (Js.lowerChar c) = Js.lowerChar c.
Proof. destruct c as [[] [] [] [] [] [] [] []]; reflexivity. Qed.

Lemma toLowerCase_idemp s : Js.toLowerCase (Js.toLowerCase s) = Js.toLowerCase s.
Proof. induction s as [|c s IH]; simpl; [done | by rewrite lowerChar_idemp, IH]. Qed.

End text_facts.

Example split_two_words : Js.split_ws "I miss  you" = ["I"; " "; "miss"; "  "; "you"].
Proof. reflexivity. Qed.

Example split_edges : Js.split_ws " a " = [""; " "; "a"; " "; ""].
Proof. reflexivity. Qed.

Example split_empty : Js.split_ws "" = [""].
Proof. reflexivity. Qed.

Example lower_mixed : Js.toLowerCase "LoVe, Me!" = "love, me!".
Proof. reflexivity. Qed.

(** ** Word highlighting *)

Section highlighting.

Import App.

Lemma children_renderWord word : children (renderWord word) = word.
Proof. unfold renderWord. by destruct (truthy_prop _). Qed.

Lemma children_HighlightedText text :
  map children (HighlightedText text) = Js.split_ws text.
Proof.
  unfold HighlightedText. rewrite map_map.
  induction (Js.split_ws text) as [|w ws IH]; simpl; [done|].
  by rewrite children_renderWord, IH.
Qed.

Lemma own_entry_elem table key cls :
  own_entry table key = Some cls → (key, cls) ∈ table.
Proof.
  induction table as [|[k v] table IH]; simpl; [done|].
  destruct (String.eqb_spec k key) as [->|_].
  - intros [= ->]. left.
  - intros H. right. auto.
Qed.

(** Every entry of the table is a non-empty text, hence truthy. *)
Lemma own_entry_nonempty key cls :
  own_entry SPECIAL_WORDS key = Some cls → String.eqb cls "" = false.
Proof.
  intros H%own_entry_elem.
  assert (Forall (λ e, String.eqb e.2 "" = false) SPECIAL_WORDS) as Hall
    by (repeat constructor).
  rewrite Forall_forall in Hall. exact (Hall _ H).
Qed.

(** The class a word is drawn with is the entry of its cleaned form. *)
Lemma className_renderWord word cls :
  className (renderWord word) = Some (PText cls)
  ↔ own_entry SPECIAL_WORDS (cleanWord word) = Some cls.
Proof.
  unfold renderWord, SPECIAL_WORDS_at.
  destruct (own_entry SPECIAL_WORDS (cleanWord word)) as [cls'|] eqn:E; simpl.
  - rewrite (own_entry_nonempty _ _ E). simpl. split; congruence.
  - case_bool_decide; simpl; split; congruence.
Qed.

End highlighting.

Section highlighting_claims.

Import App.

Lemma removeAll_app cls s t :
  Js.removeAll cls (s +:+ t) = Js.removeAll cls s +:+ Js.removeAll cls t.
Proof.
  induction s as [|c s IH]; [done|].
  rewrite app_cons. simpl. destruct (cls c); by rewrite ?app_cons, IH.
Qed.

Lemma removeAll_every cls s : Written.every cls s = true → Js.removeAll cls s = "".
Proof.
  induction s as [|c s IH]; simpl; [done|].
  destruct (cls c); simpl; [auto | discriminate].
Qed.

(** No keyword of the table contains a punctuation character. *)
Lemma keyword_clean kw cls :
  own_entry SPECIAL_WORDS kw = Some cls → Js.removeAll isPunct kw = kw.
Proof.
  intros H%own_entry_elem.
  assert (Forall (λ e, Js.removeAll isPunct e.1 = e.1) SPECIAL_WORDS) as Hall
    by (repeat constructor).
  rewrite Forall_forall in Hall. exact (Hall _ H).
Qed.

(** C5, as the code has it.  [HighlightedText] splits the text on white
    space and keeps the white space pieces; every piece is shown unchanged;
    the lookup key of a piece is its lower-case form with every
    occurrence of [. , ! ? ; :] removed, wherever it stands in the piece;
    a piece carries the class text of a keyword exactly when its key is
    that keyword; and a keyword written in any letter case, with or
    without punctuation after it, carries the keyword's class. *)
Theorem highlight_by_cleaned_key (text word kw cls trail : string) :
  map children (HighlightedText text) = Js.split_ws text
  ∧ Forall (λ sp, ∀ c, className sp = Some (PText c)
              ↔ own_entry SPECIAL_WORDS
                  (Js.removeAll isPunct (Js.toLowerCase (children sp))) = Some c)
      (HighlightedText text)
  ∧ (own_entry SPECIAL_WORDS kw = Some cls →
     Written.every isPunct trail = true →
     Js.toLowerCase word = kw +:+ trail →
     className (renderWord word) = Some (PText cls)).
Proof.
  split; [apply children_HighlightedText|]. split.
  - unfold HighlightedText. apply Forall_forall. intros sp Hsp.
    apply list_elem_of_fmap in Hsp as (w & -> & _). intros c.
    rewrite children_renderWord. apply className_renderWord.
  - intros Hkw Htrail Hlow. apply className_renderWord.
    unfold cleanWord. rewrite Hlow, removeAll_app.
    rewrite (removeAll_every _ _ Htrail), app_empty_r.
    by rewrite (keyword_clean _ _ Hkw).
Qed.

Lemma highlight_by_cleaned_key_witness :
  className (renderWord "LoVe?!") = Some (PText "text-pink-500 font-bold drop-shadow-sm").
Proof.
  apply (proj2 (proj2 (highlight_by_cleaned_key "I LoVe?! you" "LoVe?!" "love"
                         "text-pink-500 font-bold drop-shadow-sm" "?!")));
    reflexivity.
Defined.

(** C5, as written, fails: punctuation before or inside a word is removed
    from the key as well, so ["...love"] is drawn as the keyword [love]
    although stripping its trailing punctuation leaves ["...love"], which
    is no keyword. *)
Lemma highlight_as_written_fails :
  ¬ (∀ text, HighlightedText text = Written.HighlightedText text).
Proof. intros H. specialize (H "...love"). discriminate H. Qed.

(** C10.  The pieces [HighlightedText] emits, put together, are the input
    text, character for character. *)
Theorem highlight_preserves_text (text : string) :
  textContent (HighlightedText text) = text.
Proof.
  unfold textContent. rewrite children_HighlightedText. apply join_split_ws.
Qed.

End highlighting_claims.

Example highlight_sentence :
  App.HighlightedText "I miss you, Love!" =
    [ {| App.className := None; App.children := "I" |};
      {| App.className := None; App.children := " " |};
      {| App.className := Some (App.PText "text-blue-400"); App.children := "miss" |};
      {| App.className := None; App.children := " " |};
      {| App.className := None; App.children := "you," |};
      {| App.className := None; App.children := " " |};
      {| App.className := Some (App.PText "text-pink-500 font-bold drop-shadow-sm");
         App.children := "Love!" |} ].
Proof. reflexivity. Qed.

(** Punctuation inside or before a word does not keep it from its keyword. *)
Example highlight_inner_punctuation :
  App.HighlightedText "...love" =
    [ {| App.className := Some (App.PText "text-pink-500 font-bold drop-shadow-sm");
         App.children := "...love" |} ]
  ∧ Written.lookup_key "...love" = "...love"
  ∧ App.own_entry App.SPECIAL_WORDS "...love" = None.
Proof. repeat split. Qed.

(** A member every object inherits is found by the property read; the span
    then carries no class text. *)
Example highlight_inherited_member :
  App.HighlightedText "constructor" =
    [ {| App.className := Some App.PInherited; App.children := "constructor" |} ].
Proof. reflexivity. Qed.

(** ** The category filter *)

Section category_filter.

Context {A : Type} (P : A → Prop) `{!∀ x, Decision (P x)}.

(** [filter P l] is the largest subsequence of [l] inside [P]. *)
Lemma sublist_filter_max (l k : list A) :
  k `sublist_of` l → Forall P k → k `sublist_of` filter P l.
Proof.
  induction 1 as [|x k l _ IH|x k l _ IH]; intros Hk.
  - constructor.
  - apply Forall_cons in Hk as [Hx Hk].
    rewrite filter_cons_True by done. constructor. auto.
  - rewrite filter_cons. case_decide; [constructor|]; auto.
Qed.

Lemma Forall_filter (l : list A) : Forall P (filter P l).
Proof. apply Forall_forall. intros x Hx. by apply list_elem_of_filter in Hx as [? _]. Qed.

End category_filter.

(** C4.  With the filter ["All"] the feed is the whole list, as it is.  With
    any other value it is a subsequence of the list (so the order is kept),
    each of its records has the selected category, and it contains every
    subsequence of the list whose records all have that category: it is
    exactly the subsequence of the records of that category. *)
Theorem filter_by_category (flt : string) (cs : list Confession) :
  App.filteredConfessions "All" cs = cs
  ∧ (flt ≠ "All" →
     App.filteredConfessions flt cs `sublist_of` cs
     ∧ Forall (λ c, category c = flt) (App.filteredConfessions flt cs)
     ∧ ∀ l, l `sublist_of` cs → Forall (λ c, category c = flt) l →
            l `sublist_of` App.filteredConfessions flt cs).
Proof.
  split; [reflexivity|]. intros Hflt.
  unfold App.filteredConfessions. rewrite decide_False by done.
  split; [apply sublist_filter|]. split; [apply Forall_filter|].
  intros l. apply sublist_filter_max.
Qed.

Lemma filter_by_category_witness :
  App.filteredConfessions "Love" Sample.feed `sublist_of` Sample.feed
  ∧ Forall (λ c, category c = "Love") (App.filteredConfessions "Love" Sample.feed)
  ∧ ∀ l, l `sublist_of` Sample.feed → Forall (λ c, category c = "Love") l →
         l `sublist_of` App.filteredConfessions "Love" Sample.feed.
Proof. apply (proj2 (filter_by_category "Love" Sample.feed)). discriminate. Defined.

Example filter_love :
  map id (App.filteredConfessions "Love" Sample.feed) = [3; 1]%Z
  ∧ map id (App.filteredConfessions "All" Sample.feed) = [3; 2; 1]%Z
  ∧ App.filteredConfessions "Secret" Sample.feed = [].
Proof. repeat split. Qed.

(** ** The confession service *)

Section confession_service.

Import Server.

Global Instance newer_first_total : Total newer_first.
Proof. intros a b. unfold newer_first. lia. Qed.

Global Instance newer_first_trans : Transitive newer_first.
Proof. intros a b c. unfold newer_first. lia. Qed.

Lemma select_recent_split st :
  select_recent st ++ drop 50 (merge_sort newer_first (rows st))
  = merge_sort newer_first (rows st).
Proof. apply take_drop. Qed.

Lemma merge_sort_rows_sorted st :
  StronglySorted newer_first (merge_sort newer_first (rows st)).
Proof. apply StronglySorted_merge_sort; apply _. Qed.

Lemma select_recent_sorted st : StronglySorted newer_first (select_recent st).
Proof.
  pose proof (merge_sort_rows_sorted st) as H.
  rewrite <- select_recent_split in H. by apply StronglySorted_app_1_l in H.
Qed.

Lemma select_recent_length st :
  length (select_recent st) = (50 `min` length (rows st))%nat.
Proof.
  unfold select_recent. rewrite length_take.
  by rewrite (Permutation_length (merge_sort_Permutation newer_first (rows st))).
Qed.

(** C3.  Whatever the table holds, the records [GET /api/confessions]
    answers with are at most 50 and stand in non-increasing order of
    creation time.  When the query runs they are the 50 most recent rows of
    the table (all of them when there are fewer): together with the rows
    left out they are the table, and no row left out is more recent than a
    row returned. *)
Theorem list_recent_capped_sorted (e : Engine) (st : Store) :
  (length (Written.records (get_confessions e st)) ≤ 50)%nat
  ∧ StronglySorted newer_first (Written.records (get_confessions e st))
  ∧ get_confessions Runs st = {| status := 200; body := JConfessions (select_recent st) |}
  ∧ length (select_recent st) = (50 `min` length (rows st))%nat
  ∧ ∃ older, select_recent st ++ older ≡ₚ rows st
      ∧ Forall (λ r, Forall (λ o, newer_first r o) older) (select_recent st).
Proof.
  split; [|split; [|split; [done|split; [apply select_recent_length|]]]].
  - destruct e; [|simpl; lia].
    change (length (select_recent st) ≤ 50)%nat. rewrite select_recent_length. lia.
  - destruct e; [apply select_recent_sorted | constructor].
  - exists (drop 50 (merge_sort newer_first (rows st))). split.
    + rewrite select_recent_split. apply merge_sort_Permutation.
    + pose proof (merge_sort_rows_sorted st) as H.
      rewrite <- select_recent_split in H.
      apply Forall_forall. intros r Hr. apply Forall_forall. intros o Ho.
      eapply StronglySorted_app_1_elem_of; eauto.
Qed.

(** The test of the create handler: [!content || content.length < 5]. *)
Lemma short_test c :
  String.eqb c "" || (String.length c <? 5)%nat = true ↔ (String.length c < 5)%nat.
Proof.
  destruct (String.eqb_spec c "") as [->|_]; simpl.
  - split; [lia | done].
  - apply Nat.ltb_lt.
Qed.

(** C1.  A create request whose content is absent, or shorter than 5
    characters, is answered 400 with a validation error and leaves the
    store as it was; these are the only requests answered 400.  For every
    other request the insert is attempted: when the statement runs the
    answer is 201 with the new identifier and the table has the new row at
    its end; when it throws the answer is 500 and the store is as it
    was. *)
Theorem create_rejects_short (e : Engine) (now : N) (req : CreateBody) (st : Store) :
  ((b_content req = None ∨ ∃ c, b_content req = Some c ∧ (String.length c < 5)%nat) →
     post_confession e now req st
     = ({| status := 400; body := JError "Confession too short" |}, st))
  ∧ (∀ c, b_content req = Some c → (5 ≤ String.length c)%nat →
       status (post_confession e now req st).1 ≠ 400
       ∧ match insert_confession e now st c
                 (Js.or_text (b_category req) "General")
                 (Js.or_null (b_recipient req)) (Js.or_null (b_sender req))
                 (Js.or_null (b_feeling req)) (Js.or_null (b_song req)) with
         | Some (st', new) =>
             post_confession e now req st = ({| status := 201; body := JId new |}, st')
             ∧ ∃ row, rows st' = rows st ++ [row]
                 ∧ id row = new ∧ content row = c ∧ likes row = 0%Z
                 ∧ timestamp row = now
         | None =>
             post_confession e now req st
             = ({| status := 500; body := JError "Failed to save confession" |}, st)
         end).
Proof.
  split.
  - intros [Hc|(c & Hc & Hlen)]; unfold post_confession; rewrite Hc; [done|].
    apply short_test in Hlen. by rewrite Hlen.
  - intros c Hc Hlen. unfold post_confession. rewrite Hc.
    destruct (String.eqb c "" || (String.length c <? 5)%nat) eqn:Htest.
    { apply short_test in Htest. lia. }
    destruct e; simpl; [|done].
    split; [done|]. split; [done|]. eexists. split; [done|]. done.
Qed.

End confession_service.

Section confession_service_more.

Import Server.

Lemma create_rejects_short_witness :
  post_confession Runs 100 (Sample.body_of (Some "hey") None) Sample.empty
  = ({| status := 400; body := JError "Confession too short" |}, Sample.empty)
  ∧ post_confession Runs 100 Sample.miss_you Sample.empty
    = ({| status := 201; body := JId 1 |},
       {| rows := [ {| id := 1; content := "I miss you so much"; category := "Love";
                       recipient := None; sender := None; feeling := None;
                       song := None; timestamp := 100; likes := 0 |} ];
          seq := 1 |}).
Proof.
  split.
  - apply (proj1 (create_rejects_short Runs 100 (Sample.body_of (Some "hey") None)
                    Sample.empty)).
    right. exists "hey". split; [reflexivity | simpl; lia].
  - assert (5 ≤ String.length "I miss you so much")%nat as Hlen by (simpl; lia).
    pose proof (proj2 (create_rejects_short Runs 100 Sample.miss_you Sample.empty)
                  "I miss you so much" eq_refl Hlen) as [_ H].
    simpl in H. destruct H as [H _]. exact H.
Defined.

Lemma or_null_omit v :
  Js.or_null (match v with Some "" => None | _ => v end) = Js.or_null v.
Proof. destruct v as [[|c s]|]; reflexivity. Qed.

Lemma or_text_omit v d :
  Js.or_text (match v with Some "" => None | _ => v end) d = Js.or_text v d.
Proof. destruct v as [[|c s]|]; reflexivity. Qed.

Lemma or_null_blank v : Js.or_null v ≠ Some "".
Proof.
  destruct v as [s|]; simpl; [|done].
  destruct (String.eqb_spec s ""); congruence.
Qed.

(** C9.  A create request in which an optional field is the empty text is
    handled exactly as the request with that field left out.  In the row a
    successful create stores, [recipient], [sender], [feeling] and [song]
    are never the empty text and are [NULL] where the request had the
    empty text, and [category] is ["General"] where the request had the
    empty text. *)
Theorem blank_field_as_absent (e : Engine) (now : N) (req : CreateBody) (st : Store) :
  post_confession e now req st = post_confession e now (Written.omit_blank req) st
  ∧ ∀ resp st', post_confession e now req st = (resp, st') → status resp = 201 →
      ∃ row, rows st' = rows st ++ [row]
        ∧ (b_recipient req = Some "" → recipient row = None)
        ∧ (b_sender req = Some "" → sender row = None)
        ∧ (b_feeling req = Some "" → feeling row = None)
        ∧ (b_song req = Some "" → song row = None)
        ∧ (b_category req = Some "" → category row = "General")
        ∧ recipient row ≠ Some "" ∧ sender row ≠ Some ""
        ∧ feeling row ≠ Some "" ∧ song row ≠ Some "".
Proof.
  split.
  - unfold post_confession, Written.omit_blank. simpl.
    by rewrite !or_null_omit, or_text_omit.
  - intros resp st'. unfold post_confession.
    destruct (b_content req) as [c|]; [|intros [= <- <-]; discriminate].
    destruct (String.eqb c "" || (String.length c <? 5)%nat);
      [intros [= <- <-]; discriminate|].
    destruct e; simpl; [|intros [= <- <-]; discriminate].
    intros [= <- <-] _. eexists. split; [reflexivity|]. simpl.
    repeat split; try (intros ->; reflexivity); apply or_null_blank.
Qed.

Lemma blank_field_as_absent_witness :
  ∃ row, rows (post_confession Runs 7 (Sample.body_of (Some "hello there") (Some ""))
                 Sample.empty).2 = [row]
    ∧ recipient row = None ∧ sender row = None ∧ feeling row = None
    ∧ song row = None ∧ category row = "General".
Proof.
  destruct (proj2 (blank_field_as_absent Runs 7
                     (Sample.body_of (Some "hello there") (Some "")) Sample.empty)
              _ _ eq_refl eq_refl)
    as (row & Hrows & Hr & Hs & Hf & Hg & Hc & _).
  exists row. split; [exact Hrows|].
  repeat split; [apply Hr | apply Hs | apply Hf | apply Hg | apply Hc]; reflexivity.
Defined.

Lemma same_but_likes_add_like c : Written.same_but_likes c (add_like c).
Proof. repeat split. Qed.

Lemma update_rows_id ident (l : list Confession) :
  (∀ c, c ∈ l → id c ≠ ident) →
  map (λ c, if (id c =? ident)%Z then add_like c else c) l = l.
Proof.
  induction l as [|c l IH]; intros H; simpl; [done|].
  rewrite IH by (intros c' Hc'; apply H; by right).
  destruct (Z.eqb_spec (id c) ident) as [Heq|_]; [|done].
  exfalso. apply (H c); [left | done].
Qed.

(** C2.  When the statement runs, a like request is answered
    [{success: true}] with status 200, whether or not a row has the
    identifier.  The table keeps its rows in place; a row with the
    identifier has its [likes] one higher and every other field as before;
    every other row is as before; and if no row has the identifier the
    store is unchanged. *)
Theorem like_increments_by_one (ident : Z) (st : Store) :
  (post_like Runs ident st).1 = {| status := 200; body := JSuccess |}
  ∧ seq (post_like Runs ident st).2 = seq st
  ∧ length (rows (post_like Runs ident st).2) = length (rows st)
  ∧ (∀ i c, rows st !! i = Some c →
       ∃ c', rows (post_like Runs ident st).2 !! i = Some c'
         ∧ (id c = ident → likes c' = (likes c + 1)%Z ∧ Written.same_but_likes c c')
         ∧ (id c ≠ ident → c' = c))
  ∧ ((∀ c, c ∈ rows st → id c ≠ ident) → (post_like Runs ident st).2 = st).
Proof.
  simpl. split; [done|]. split; [done|]. split; [apply length_map|]. split.
  - intros i c Hi. rewrite list_lookup_fmap, Hi. simpl.
    eexists. split; [reflexivity|].
    destruct (Z.eqb_spec (id c) ident) as [Heq|Hne]; split; intros H; try done.
    all: split; [done | apply same_but_likes_add_like].
  - intros H. rewrite update_rows_id by done. by destruct st.
Qed.

Lemma like_increments_by_one_witness :
  (likes <$> rows (post_like Runs 2 Sample.store).2 !! 1%nat) = Some 1%Z
  ∧ (post_like Runs 99 Sample.store).2 = Sample.store.
Proof.
  split.
  - destruct (proj1 (proj2 (proj2 (proj2 (like_increments_by_one 2 Sample.store))))
                1%nat _ eq_refl) as (c' & -> & H & _).
    simpl. f_equal. apply (proj1 (H eq_refl)).
  - apply (proj2 (proj2 (proj2 (proj2 (like_increments_by_one 99 Sample.store))))).
    intros c Hc. vm_compute in Hc.
    repeat (apply elem_of_cons in Hc as [->|Hc]; [discriminate|]).
    by apply elem_of_nil in Hc.
Defined.

End confession_service_more.

(** The example of the specification: a posted confession is listed first
    with no like, and each like call adds one. *)
Example post_then_like_twice :
  let s1 := (Server.post_confession Server.Runs 40 Sample.miss_you Sample.store).2 in
  let s2 := (Server.post_like Server.Runs 4 s1).2 in
  let s3 := (Server.post_like Server.Runs 4 s2).2 in
  (Server.post_confession Server.Runs 40 Sample.miss_you Sample.store).1
    = {| status := 201; body := JId 4 |}
  ∧ (λ c, (id c, likes c)) <$> head (Server.select_recent s1) = Some (4, 0)%Z
  ∧ (λ c, (id c, likes c)) <$> head (Server.select_recent s2) = Some (4, 1)%Z
  ∧ (λ c, (id c, likes c)) <$> head (Server.select_recent s3) = Some (4, 2)%Z.
Proof. vm_compute. repeat split. Qed.

(** ** The mirror store adapter *)

Section mirror.

Import Mirror.

Lemma getSupabase_present env cached :
  Written.credentials_present env → is_Some (getSupabase env cached).
Proof.
  intros [Hurl Hkey]. unfold getSupabase.
  destruct cached; [by eexists|].
  destruct (SUPABASE_URL env) as [url|]; [|done].
  destruct (SUPABASE_ANON_KEY env) as [key|]; [|done].
  rewrite Hurl, Hkey. by eexists.
Qed.

Lemma getSupabase_absent env cached :
  Written.cache_ok env cached → ¬ Written.credentials_present env →
  getSupabase env cached = None.
Proof.
  intros Hok Habs. unfold getSupabase.
  destruct cached as [c|]; [destruct Habs; apply Hok; by eexists|].
  destruct (SUPABASE_URL env) as [url|] eqn:Hu; [|done].
  destruct (SUPABASE_ANON_KEY env) as [key|] eqn:Hk; [|done].
  destruct (Js.truthy (Some url)) eqn:Tu; [|done].
  destruct (Js.truthy (Some key)) eqn:Tk; [|done].
  destruct Habs. unfold Written.credentials_present. by rewrite Hu, Hk.
Qed.

(** The variable [supabaseClient] only ever holds a client when the
    credentials are there. *)
Lemma getSupabase_cache_ok env cached :
  Written.cache_ok env cached → Written.cache_ok env (getSupabase env cached).
Proof.
  intros Hok Hsome. unfold getSupabase in Hsome.
  destruct cached as [c|]; [apply Hok; by eexists|].
  unfold Written.credentials_present.
  destruct (SUPABASE_URL env) as [url|]; [|by destruct Hsome].
  destruct (SUPABASE_ANON_KEY env) as [key|]; [|by destruct Hsome].
  destruct (Js.truthy (Some url)); [|by destruct Hsome].
  destruct (Js.truthy (Some key)); [done | by destruct Hsome].
Qed.




Lemma sample_env_present : Written.credentials_present Sample.env.
Proof. split; reflexivity. Qed.


Lemma cache_ok_start env : Written.cache_ok env None.
Proof. intros [c Hc]. discriminate Hc. Qed.



(** A safe integer is read as it is written, and adding one to it is
    exact. *)
Lemma round_safe n : Double.safe n → Double.round n = n.
Proof.
  unfold Double.safe, Double.round, Double.limit. intros Hn.
  destruct (Z.ltb_spec (Z.abs n) 9007199254740992) as [|Hge]; [done | lia].
Qed.

Lemma add_one_safe n : Double.safe n → Double.add n 1 = (n + 1)%Z.
Proof.
  unfold Double.safe, Double.add, Double.round, Double.limit. intros Hn.
  destruct (Z.ltb_spec (Z.abs (n + 1)) 9007199254740992) as [|Hge]; [done|].
  assert (n = 9007199254740991%Z) as -> by lia. reflexivity.
Qed.

Lemma next_Like_safe n : Double.safe n → next_Like (Some n) = (n + 1)%Z.
Proof.
  intros Hn. unfold next_Like. rewrite (round_safe n Hn).
  destruct (Z.eqb_spec n 0) as [->|_]; [reflexivity | by apply add_one_safe].
Qed.




End mirror.

(** Two clients that both display the count 4 and both like the record leave
    5 in the table, not 6: the second write repeats the first. *)
Example mirror_like_lost_update :
  let t1 := (Mirror.post_like Sample.env Mirror.Answers None 1
               {| currentLikes := Some 4%Z |} Sample.messages).2 in
  let t2 := (Mirror.post_like Sample.env Mirror.Answers None 1
               {| currentLikes := Some 4%Z |} t1).2 in
  msg_Like <$> t2 !! 0%nat = Some 5%Z.
Proof. reflexivity. Qed.

(** ** The song cell *)

Section song_cell.

Import App.

Implicit Types (s t p : string).

Lemma strip_prefix_Some p s t : strip_prefix p s = Some t ↔ s = p +:+ t.
Proof.
  revert s. induction p as [|a p IH]; intros s; simpl.
  - rewrite app_empty_l. split; congruence.
  - destruct s as [|b s]; [split; discriminate|].
    rewrite app_cons. destruct (Ascii.eqb_spec a b) as [->|Hne].
    + rewrite IH. split; congruence.
    + split; [discriminate | congruence].
Qed.

Lemma takeWhile_every cls s : Written.every cls (takeWhile cls s) = true.
Proof.
  induction s as [|c s IH]; simpl; [done|].
  destruct (cls c) eqn:Hc; simpl; [by rewrite Hc | done].
Qed.

Lemma takeWhile_prefix cls s : ∃ after, s = takeWhile cls s +:+ after.
Proof.
  induction s as [|c s [after IH]]; simpl; [by exists ""|].
  destruct (cls c).
  - exists after. by rewrite app_cons, <- IH.
  - by exists (String c s).
Qed.

(** A greedy run is not empty when the text starts with a non-empty run. *)
Lemma takeWhile_app cls s t :
  s ≠ "" → Written.every cls s = true → takeWhile cls (s +:+ t) ≠ "".
Proof.
  destruct s as [|c s]; [done|]. intros _.
  rewrite app_cons. simpl. by destruct (cls c).
Qed.

Lemma match_kind_Some kind s k ident :
  match_kind kind s = Some (k, ident) →
  k = kind ∧ ident ≠ "" ∧ Written.every isAlnum ident = true
  ∧ ∃ after, s = kind +:+ "/" +:+ ident +:+ after.
Proof.
  unfold match_kind.
  destruct (strip_prefix (kind +:+ "/") s) as [rest|] eqn:Hp; [|done].
  destruct (String.eqb_spec (takeWhile isAlnum rest) "") as [|Hne]; [done|].
  intros [= <- <-]. apply strip_prefix_Some in Hp.
  split; [done|]. split; [done|]. split; [apply takeWhile_every|].
  destruct (takeWhile_prefix isAlnum rest) as [after Hafter].
  exists after. by rewrite Hp, app_assoc_str, <- Hafter.
Qed.

Lemma match_kind_complete kind ident after :
  ident ≠ "" → Written.every isAlnum ident = true →
  is_Some (match_kind kind (kind +:+ "/" +:+ ident +:+ after)).
Proof.
  intros Hne Hall. unfold match_kind.
  rewrite <- app_assoc_str.
  rewrite (proj2 (strip_prefix_Some _ _ (ident +:+ after)) eq_refl).
  pose proof (takeWhile_app isAlnum ident after Hne Hall) as H.
  destruct (String.eqb_spec (takeWhile isAlnum (ident +:+ after)) ""); [done|].
  by eexists.
Qed.

Lemma first_kind_Some ks s k ident :
  first_kind ks s = Some (k, ident) → k ∈ ks ∧ match_kind k s = Some (k, ident).
Proof.
  induction ks as [|k' ks IH]; simpl; [done|].
  destruct (match_kind k' s) as [[k1 i1]|] eqn:Hm.
  - intros [= -> ->]. destruct (match_kind_Some _ _ _ _ Hm) as [-> _].
    split; [left | done].
  - intros H. destruct (IH H). split; [by right | done].
Qed.

Lemma first_kind_complete ks s k :
  k ∈ ks → is_Some (match_kind k s) → is_Some (first_kind ks s).
Proof.
  induction ks as [|k' ks IH]; intros Hin Hm; [by apply elem_of_nil in Hin|].
  simpl. destruct (match_kind k' s) as [m|] eqn:Hk'; [by eexists|].
  apply elem_of_cons in Hin as [->|Hin]; [|auto].
  rewrite Hk' in Hm. by destruct Hm.
Qed.

Lemma regex_match_Some s k ident :
  regex_match s = Some (k, ident) →
  ∃ before rest, s = before +:+ rest ∧ match_here rest = Some (k, ident).
Proof.
  induction s as [|c s IH]; simpl.
  - discriminate.
  - destruct (match_here (String c s)) eqn:Hm.
    + intros [= ->]. by exists "", (String c s).
    + intros H. destruct (IH H) as (before & rest & -> & Hrest).
      by exists (String c before), rest.
Qed.

Lemma regex_match_here s m : match_here s = Some m → regex_match s = Some m.
Proof. destruct s; unfold regex_match; fold regex_match; by intros ->. Qed.

Lemma regex_match_complete before rest :
  is_Some (match_here rest) → is_Some (regex_match (before +:+ rest)).
Proof.
  intros [m Hm]. induction before as [|c before IH].
  - rewrite app_empty_l, (regex_match_here _ _ Hm). by eexists.
  - rewrite app_cons. unfold regex_match; fold regex_match.
    destruct (match_here (String c (before +:+ rest))); [by eexists | exact IH].
Qed.

(** The search succeeds exactly on the texts that contain the link
    pattern. *)
Lemma regex_match_link_pattern song :
  is_Some (regex_match song) ↔ Written.link_pattern song.
Proof.
  split.
  - intros [[k ident] H].
    apply regex_match_Some in H as (before & rest & -> & Hm).
    unfold match_here in Hm.
    destruct (strip_prefix prefix_literal rest) as [rest'|] eqn:Hp; [|done].
    apply strip_prefix_Some in Hp as ->.
    apply first_kind_Some in Hm as [Hin Hm].
    apply match_kind_Some in Hm as (_ & Hne & Hall & after & ->).
    by exists before, k, ident, after.
  - intros (before & k & ident & after & -> & Hin & Hne & Hall).
    apply regex_match_complete. unfold match_here.
    rewrite (proj2 (strip_prefix_Some _ _ (k +:+ "/" +:+ ident +:+ after)) eq_refl).
    eapply first_kind_complete; [done|]. by apply match_kind_complete.
Qed.

(** C8.  A song text is rendered as the embedded player exactly when it
    contains the link pattern of a track, album or playlist, and as the
    card with a search link in every other case; the link of the example
    is embeddable and the plain title is a search link. *)
Theorem song_embeddable_iff_link (song : string) :
  ((∃ src, SpotifyPlayer song = EmbeddedPlayer src) ↔ Written.link_pattern song)
  ∧ (¬ Written.link_pattern song →
     SpotifyPlayer song
     = SearchLink song ("https://open.spotify.com/search/" +:+ encodeURIComponent song))
  ∧ SpotifyPlayer "https://open.spotify.com/track/abc123"
    = EmbeddedPlayer
        "https://open.spotify.com/embed/track/abc123?utm_source=generator&theme=0"
  ∧ SpotifyPlayer "Perfect by Ed Sheeran"
    = SearchLink "Perfect by Ed Sheeran"
        "https://open.spotify.com/search/Perfect%20by%20Ed%20Sheeran".
Proof.
  rewrite <- regex_match_link_pattern. unfold SpotifyPlayer.
  split; [|split; [|split; reflexivity]].
  - destruct (regex_match song) as [[k ident]|]; split.
    + by eexists.
    + by eexists.
    + intros [src H]. discriminate H.
    + intros [m H]. discriminate H.
  - destruct (regex_match song) as [[k ident]|]; [|done].
    intros H. destruct H. by eexists.
Qed.

Lemma song_embeddable_iff_link_witness :
  (∃ src, SpotifyPlayer "see https://open.spotify.com/album/4aawyAB9 now"
          = EmbeddedPlayer src)
  ∧ SpotifyPlayer "https://open.spotify.com/artist/abc123"
    = SearchLink "https://open.spotify.com/artist/abc123"
        ("https://open.spotify.com/search/"
         +:+ encodeURIComponent "https://open.spotify.com/artist/abc123").
Proof.
  split.
  - apply (proj1 (song_embeddable_iff_link
                    "see https://open.spotify.com/album/4aawyAB9 now")).
    exists "see ", "album", "4aawyAB9", " now".
    split; [reflexivity|]. split; [|split; [discriminate | reflexivity]].
    right. left.
  - apply (proj1 (proj2 (song_embeddable_iff_link
                           "https://open.spotify.com/artist/abc123"))).
    rewrite <- regex_match_link_pattern. intros [m H]. discriminate H.
Defined.

End song_cell.

Example song_views :
  App.SpotifyPlayer "https://open.spotify.com/playlist/37i9dQ?si=1"
  = App.EmbeddedPlayer "https://open.spotify.com/embed/playlist/37i9dQ?utm_source=generator&theme=0"
  ∧ App.SpotifyPlayer "https://open.spotify.com/track/"
    = App.SearchLink "https://open.spotify.com/track/"
        "https://open.spotify.com/search/https%3A%2F%2Fopen.spotify.com%2Ftrack%2F".
Proof. split; reflexivity. Qed.


(** ** The confession service over time *)

Section service_traces.

Import Server Service.

Lemma foldr_max_ge (z : Z) (l : list Z) :
  (z ≤ foldr Z.max z l)%Z ∧ Forall (λ x, x ≤ foldr Z.max z l)%Z l.
Proof.
  induction l as [|x l [IH1 IH2]]; simpl; [split; [lia | constructor]|].
  split; [lia|]. constructor; [lia|].
  eapply Forall_impl; [exact IH2|]. simpl. intros y Hy. lia.
Qed.

(** The identifier of a new row is above the sequence and above every
    identifier in the table. *)
Lemma next_id_above st :
  (seq st < next_id st)%Z ∧ Forall (λ c, id c < next_id st)%Z (rows st).
Proof.
  unfold next_id. destruct (foldr_max_ge (seq st) (map id (rows st))) as [H1 H2].
  split; [lia|]. rewrite Forall_fmap in H2.
  eapply Forall_impl; [exact H2|]. simpl. intros c Hc. lia.
Qed.


(** What a request does to the store: nothing, one row more at the end, or
    the like counters of the rows of one identifier raised by one. *)
Lemma handle_cases r st :
  (handle r st).2 = st
  ∨ (∃ e now req c new, r = Create e now req ∧ b_content req = Some c
       ∧ (5 ≤ String.length c)%nat
       ∧ insert_confession Runs now st c (Js.or_text (b_category req) "General")
           (Js.or_null (b_recipient req)) (Js.or_null (b_sender req))
           (Js.or_null (b_feeling req)) (Js.or_null (b_song req))
         = Some ((handle r st).2, new)
       ∧ (handle r st).1 = {| status := 201; body := JId new |})
  ∨ (∃ ident, r = Like Runs ident ∧ update_likes Runs ident st = Some (handle r st).2).
Proof.
  destruct r as [e|e now req|e ident]; simpl.
  - by left.
  - unfold post_confession. destruct (b_content req) as [c|] eqn:Hc; [|by left].
    destruct (String.eqb c "" || (String.length c <? 5)%nat) eqn:Htest; [by left|].
    destruct e; [|by left]. right. left.
    exists Runs, now, req, c, (next_id st). repeat split; try done.
    destruct (Nat.ltb_spec (String.length c) 5); [|done].
    by rewrite orb_true_r in Htest.
  - destruct e; [|by left]. right. right. by exists ident.
Qed.


Lemma run_snoc rs r st : run (rs ++ [r]) st = (handle r (run rs st)).2.
Proof. unfold run. by rewrite foldl_app. Qed.

Lemma run_cons r rs st : run (r :: rs) st = run rs (handle r st).2.
Proof. reflexivity. Qed.



Lemma handle_seq_mono r st : (seq st ≤ seq (handle r st).2)%Z.
Proof.
  destruct (handle_cases r st) as [->|[(e & now & req & c & new & _ & _ & _ & Hins & _)
                                      |(ident & _ & Hupd)]]; [done| |].
  - simpl in Hins. injection Hins as <- <-. simpl.
    destruct (next_id_above st). lia.
  - simpl in Hupd. by injection Hupd as <-.
Qed.

Lemma run_seq_mono rs st : (seq st ≤ seq (run rs st))%Z.
Proof.
  revert st. induction rs as [|r rs IH]; intros st; [done|].
  rewrite run_cons. etrans; [apply handle_seq_mono | apply IH].
Qed.

Lemma created_seq e now req st new st' :
  post_confession e now req st = ({| status := 201; body := JId new |}, st') →
  (seq st < new)%Z ∧ seq st' = new ∧ Forall (λ c, id c < new)%Z (rows st).
Proof.
  unfold post_confession. destruct (b_content req) as [c|]; [|discriminate].
  destruct (String.eqb c "" || (String.length c <? 5)%nat); [discriminate|].
  destruct e; simpl; [|discriminate]. intros [= <- <-]. simpl.
  destruct (next_id_above st). by repeat split.
Qed.

(** X2.  Identifiers are never handed out twice and only grow: the
    identifier of a created record is above every identifier in the table,
    and any later create, whatever was served in between, returns a larger
    one. *)
Theorem created_ids_increase (e1 e2 : Engine) (now1 now2 : N) (req1 req2 : CreateBody)
    (rs : list Request) (st st1 st2 : Store) (id1 id2 : Z) :
  post_confession e1 now1 req1 st = ({| status := 201; body := JId id1 |}, st1) →
  post_confession e2 now2 req2 (run rs st1) = ({| status := 201; body := JId id2 |}, st2) →
  Forall (λ c, id c < id1)%Z (rows st) ∧ (id1 < id2)%Z.
Proof.
  intros (_ & Hseq1 & Hids)%created_seq (Hlt & _ & _)%created_seq.
  split; [done|]. pose proof (run_seq_mono rs st1). lia.
Qed.

Lemma created_ids_increase_witness :
  Forall (λ c, id c < 4)%Z (rows Sample.store) ∧ (4 < 5)%Z.
Proof.
  apply (created_ids_increase Runs Runs 40 50 Sample.miss_you Sample.miss_you
           [Like Runs 4; ListRecent Runs] Sample.store
           (post_confession Runs 40 Sample.miss_you Sample.store).2
           (post_confession Runs 50 Sample.miss_you
              (run [Like Runs 4; ListRecent Runs]
                 (post_confession Runs 40 Sample.miss_you Sample.store).2)).2);
    reflexivity.
Defined.

End service_traces.

Section service_rows.

Import Server Service.

Lemma same_but_likes_refl c : Written.same_but_likes c c.
Proof. repeat split. Qed.

Lemma same_but_likes_trans c1 c2 c3 :
  Written.same_but_likes c1 c2 → Written.same_but_likes c2 c3 →
  Written.same_but_likes c1 c3.
Proof. unfold Written.same_but_likes. intros H1 H2. intuition congruence. Qed.

Lemma handle_row_persists r st i c :
  rows st !! i = Some c →
  ∃ c', rows (handle r st).2 !! i = Some c'
    ∧ Written.same_but_likes c c' ∧ (likes c ≤ likes c')%Z.
Proof.
  intros Hi.
  destruct (handle_cases r st) as [->|[(e & now & req & x & new & _ & _ & _ & Hins & _)
                                      |(ident & _ & Hupd)]].
  - exists c. split; [done|]. split; [apply same_but_likes_refl | lia].
  - simpl in Hins. injection Hins as <- <-. simpl. exists c.
    split; [by apply lookup_app_l_Some|]. split; [apply same_but_likes_refl | lia].
  - simpl in Hupd. injection Hupd as <-. simpl.
    rewrite list_lookup_fmap, Hi. simpl. eexists. split; [done|].
    destruct (id c =? ident)%Z.
    + split; [apply same_but_likes_add_like | simpl; lia].
    + split; [apply same_but_likes_refl | lia].
Qed.

(** X3.  No request removes, moves or rewrites a record: whatever is served,
    a row of the table stays at its place with the same identifier,
    content, category, optional fields and creation time, and its like
    counter never goes down. *)
Theorem rows_persist (rs : list Request) (st : Store) (i : nat) (c : Confession) :
  rows st !! i = Some c →
  ∃ c', rows (run rs st) !! i = Some c'
    ∧ Written.same_but_likes c c' ∧ (likes c ≤ likes c')%Z.
Proof.
  revert st c. induction rs as [|r rs IH]; intros st c Hi.
  - exists c. split; [done|]. split; [apply same_but_likes_refl | lia].
  - rewrite run_cons.
    destruct (handle_row_persists r st i c Hi) as (c1 & Hc1 & Hsame1 & Hle1).
    destruct (IH _ _ Hc1) as (c2 & Hc2 & Hsame2 & Hle2).
    exists c2. split; [done|].
    split; [by eapply same_but_likes_trans | lia].
Qed.

Lemma rows_persist_witness :
  ∃ c', rows (run [Like Runs 1; Create Runs 50 Sample.miss_you; Like Runs 1]
                Sample.store) !! 0%nat = Some c'
    ∧ Written.same_but_likes
        {| id := 1; content := "My crush smiled at me"; category := "Love";
           recipient := Some "A"; sender := None; feeling := None; song := None;
           timestamp := 10; likes := 5 |} c'
    ∧ (5 ≤ likes c')%Z.
Proof.
  apply (rows_persist [Like Runs 1; Create Runs 50 Sample.miss_you; Like Runs 1]
           Sample.store 0). reflexivity.
Defined.

Lemma total_likes_update_absent ident (l : list Confession) :
  ident ∉ map id l →
  total_likes (map (λ c, if (id c =? ident)%Z then add_like c else c) l) = total_likes l.
Proof.
  intros H. rewrite update_rows_id; [done|].
  intros c Hc Heq. apply H. apply list_elem_of_fmap. by exists c.
Qed.

(** X4.  With distinct identifiers in the table, a like that runs raises the
    sum of all like counters by exactly one when a row has the identifier,
    and leaves it as it is when none has. *)
Theorem like_raises_total_by_one (ident : Z) (st : Store) :
  NoDup (map id (rows st)) →
  total_likes (rows (post_like Runs ident st).2)
  = (total_likes (rows st) + if bool_decide (ident ∈ map id (rows st)) then 1 else 0)%Z.
Proof.
  simpl. induction (rows st) as [|c l IH]; intros Hnd; [done|].
  simpl in Hnd. apply NoDup_cons in Hnd as [Hc Hl]. simpl.
  destruct (Z.eqb_spec (id c) ident) as [<-|Hne].
  - rewrite total_likes_update_absent by done.
    rewrite bool_decide_true by left. simpl. lia.
  - rewrite IH by done. case_bool_decide as H1; case_bool_decide as H2; try lia.
    + destruct H2. by right.
    + apply elem_of_cons in H2 as [?|?]; [congruence | done].
Qed.

Lemma like_raises_total_by_one_witness :
  total_likes (rows (post_like Runs 2 Sample.store).2) = 8%Z
  ∧ total_likes (rows (post_like Runs 9 Sample.store).2) = 7%Z.
Proof.
  assert (NoDup (map id (rows Sample.store))) as Hnd.
  { change (NoDup [1; 2; 3]%Z).
    repeat (apply NoDup_cons; split;
            [intros H; repeat (apply elem_of_cons in H as [H|H]; [discriminate H|]);
             by apply elem_of_nil in H|]).
    apply NoDup_nil_2. }
  split.
  - apply (like_raises_total_by_one 2 Sample.store Hnd).
  - apply (like_raises_total_by_one 9 Sample.store Hnd).
Defined.

(** X5.  Likes of two identifiers, in either order, leave the same store. *)
Theorem likes_commute (a b : Z) (st : Store) :
  (post_like Runs a (post_like Runs b st).2).2
  = (post_like Runs b (post_like Runs a st).2).2.
Proof.
  simpl. f_equal. rewrite !map_map. apply map_ext. intros c.
  destruct (Z.eqb_spec (id c) a), (Z.eqb_spec (id c) b); simpl;
    repeat match goal with
           | |- context [Z.eqb_spec ?x ?y] => destruct (Z.eqb_spec x y)
           | |- context [(?x =? ?y)%Z] => destruct (Z.eqb_spec x y)
           end; congruence.
Qed.

(** X6.  A confession created at a clock reading later than the creation
    time of every stored record is the first record of the next listing,
    with no like. *)
Theorem created_is_listed_first (now : N) (req : CreateBody) (st st' : Store) (new : Z) :
  Forall (λ c, timestamp c < now)%N (rows st) →
  post_confession Runs now req st = ({| status := 201; body := JId new |}, st') →
  ∃ c, head (Written.records (get_confessions Runs st')) = Some c
    ∧ id c = new ∧ likes c = 0%Z ∧ timestamp c = now.
Proof.
  intros Hold Hpost.
  unfold post_confession in Hpost.
  destruct (b_content req) as [x|] eqn:Hx; [|discriminate].
  destruct (String.eqb x "" || (String.length x <? 5)%nat); [discriminate|].
  simpl in Hpost. injection Hpost as <- <-.
  set (row := {| id := next_id st; content := x |}).
  change (∃ c, head (select_recent {| rows := rows st ++ [row]; seq := next_id st |}) = Some c
            ∧ id c = next_id st ∧ likes c = 0%Z ∧ timestamp c = now).
  unfold select_recent. simpl.
  pose proof (merge_sort_Permutation newer_first (rows st ++ [row])) as Hperm.
  pose proof (StronglySorted_merge_sort newer_first (rows st ++ [row])) as Hsorted.
  destruct (merge_sort newer_first (rows st ++ [row])) as [|h t] eqn:Hs.
  { apply Permutation_nil_l in Hperm. by destruct (rows st). }
  simpl. exists h. split; [done|].
  assert (h = row) as ->; [|done].
  assert (row ∈ h :: t) as Hrow.
  { rewrite Hperm. apply elem_of_app. right. left. }
  apply elem_of_cons in Hrow as [->|Hrow]; [done|].
  apply StronglySorted_cons in Hsorted as [Hh _].
  rewrite Forall_forall in Hh. specialize (Hh _ Hrow).
  assert (h ∈ rows st ++ [row]) as Hin by (rewrite <- Hperm; left).
  apply elem_of_app in Hin as [Hin|Hin].
  - rewrite Forall_forall in Hold. specialize (Hold _ Hin).
    unfold newer_first in Hh. simpl in Hh. lia.
  - by apply list_elem_of_singleton in Hin.
Qed.

Lemma created_is_listed_first_witness :
  ∃ c, head (Written.records
               (get_confessions Runs (post_confession Runs 40 Sample.miss_you Sample.store).2))
       = Some c
    ∧ id c = 4%Z ∧ likes c = 0%Z ∧ timestamp c = 40.
Proof.
  apply (created_is_listed_first 40 Sample.miss_you Sample.store _ 4);
    [|reflexivity].
  repeat constructor.
Defined.

End service_rows.

(** ** The feed on the client *)

Section sort_under_map.

Context {A : Type} (R : relation A) `{!RelDecision R} (f : A → A).
Hypothesis f_keeps : ∀ x y, R (f x) (f y) ↔ R x y.

Lemma list_merge_fmap (l1 l2 : list A) :
  list_merge R (f <$> l1) (f <$> l2) = f <$> list_merge R l1 l2.
Proof.
  revert l2. induction l1 as [|x1 l1 IH1]; intros l2.
  { change (f <$> []) with (@nil A). by rewrite !list_merge_nil_l. }
  induction l2 as [|x2 l2 IH2].
  { change (f <$> []) with (@nil A). by rewrite !list_merge_nil_r. }
  rewrite !fmap_cons, !list_merge_cons.
  destruct (decide (R x1 x2)) as [H|H].
  - rewrite decide_True by (by apply f_keeps).
    rewrite fmap_cons. f_equal. rewrite <- IH1. by rewrite fmap_cons.
  - rewrite decide_False by (by rewrite f_keeps).
    rewrite fmap_cons. f_equal. rewrite <- IH2. by rewrite fmap_cons.
Qed.

Local Abbreviation on_stack :=
  (fmap (M:=list) (fmap (M:=option) (fmap (M:=list) f))).

Lemma merge_list_to_stack_fmap (st : list (option (list A))) (l : list A) :
  merge_list_to_stack R (on_stack st) (f <$> l)
  = on_stack (merge_list_to_stack R st l).
Proof.
  revert l. induction st as [|[l'|] st IH]; intros l; [done| |done].
  rewrite fmap_cons. simpl. f_equal. by rewrite list_merge_fmap, IH.
Qed.

Lemma merge_stack_fmap (st : list (option (list A))) :
  merge_stack R (on_stack st) = f <$> merge_stack R st.
Proof.
  induction st as [|[l|] st IH]; [done| |done].
  rewrite fmap_cons. simpl. by rewrite IH, list_merge_fmap.
Qed.

Lemma merge_sort_aux_fmap (st : list (option (list A))) (l : list A) :
  merge_sort_aux R (on_stack st) (f <$> l) = f <$> merge_sort_aux R st l.
Proof.
  revert st. induction l as [|x l IH]; intros st; [apply merge_stack_fmap|].
  rewrite fmap_cons. simpl. rewrite <- IH. f_equal.
  by rewrite <- merge_list_to_stack_fmap.
Qed.

(** Sorting commutes with a change of the elements that keeps the order. *)
Lemma merge_sort_fmap (l : list A) : merge_sort R (f <$> l) = f <$> merge_sort R l.
Proof. apply (merge_sort_aux_fmap []). Qed.

End sort_under_map.

Section feed.

Import Server Feed.

Lemma liked_newer_first ident a b :
  newer_first (liked ident a) (liked ident b) ↔ newer_first a b.
Proof. unfold liked, newer_first. by repeat case_decide. Qed.

Lemma update_rows_liked ident (l : list Confession) :
  map (λ c, if (id c =? ident)%Z then add_like c else c) l = liked ident <$> l.
Proof.
  apply map_ext. intros c. unfold liked.
  destruct (Z.eqb_spec (id c) ident); by case_decide.
Qed.

Lemma select_recent_liked ident st :
  select_recent {| rows := liked ident <$> rows st; seq := seq st |}
  = liked ident <$> select_recent st.
Proof.
  unfold select_recent. simpl.
  rewrite (merge_sort_fmap newer_first (liked ident) (liked_newer_first ident)).
  by rewrite fmap_take.
Qed.

(** X7.  The count the client shows after a like is the count a new listing
    would give: if the [confessions] state is the current listing, then
    after [handleLike] on the response of the like request it is the
    listing of the store as the request left it, whether the statement ran
    or threw. *)
Theorem optimistic_like_is_refetch (e : Engine) (ident : Z) (st : Store) :
  handleLike (Some (post_like e ident st).1) ident
    (Written.records (get_confessions Runs st))
  = Written.records (get_confessions Runs (post_like e ident st).2).
Proof.
  destruct e; simpl; [|done].
  change (liked ident <$> select_recent st
          = select_recent
              {| rows := map (λ c, if (id c =? ident)%Z then add_like c else c) (rows st);
                 seq := seq st |}).
  by rewrite update_rows_liked, select_recent_liked.
Qed.

(** X8.  Liking does not move a record in or out of a category view: the
    filtered feed after [handleLike] is [handleLike] of the filtered
    feed. *)
Theorem filter_commutes_with_like (res : option Response) (ident : Z) (flt : string)
    (cs : list Confession) :
  App.filteredConfessions flt (handleLike res ident cs)
  = handleLike res ident (App.filteredConfessions flt cs).
Proof.
  unfold handleLike. destruct res as [r|]; [|done].
  destruct (res_ok r); [|done].
  unfold App.filteredConfessions. case_decide; [done|].
  induction cs as [|c cs IH]; [done|].
  change (map ?f (c :: cs)) with (f c :: map f cs).
  rewrite !filter_cons.
  assert (category (liked ident c) = category c) as ->
    by (unfold liked; by case_decide).
  case_decide; [|done].
  change (map ?f (c :: ?l)) with (f c :: map f l). by rewrite IH.
Qed.

End feed.

(** ** The composer *)

Section composer.

Import Composer.

Lemma stripTrailing_empty cls s :
  Written.stripTrailing cls s = "" ↔ Written.every cls s = true.
Proof.
  induction s as [|c s IH]; simpl; [done|].
  destruct (String.eqb_spec (Written.stripTrailing cls s) "") as [Heq|Hne]; simpl.
  - destruct (cls c); simpl; [|split; discriminate].
    split; [intros _; by apply IH | done].
  - split; [discriminate|]. intros [_ H]%andb_prop. by apply IH in H.
Qed.

Lemma trimStart_every s :
  Written.every Js.isWhiteSpace (trimStart s) = Written.every Js.isWhiteSpace s.
Proof.
  induction s as [|c s IH]; simpl; [done|].
  destruct (Js.isWhiteSpace c) eqn:Hc; simpl; [done | by rewrite Hc].
Qed.

(** A text trims to nothing exactly when it is white space only. *)
Lemma trim_empty s : trim s = "" ↔ Written.every Js.isWhiteSpace s = true.
Proof. unfold trim. by rewrite stripTrailing_empty, trimStart_every. Qed.

(** X9.  The composer sends nothing exactly when the text is white space
    only or shorter than 5 characters; otherwise it sends the text, to the
    mirror route in the mirror view and to the local route in the local
    view.  A text of 5 or more white space characters is therefore never
    sent, although the button is enabled and the create handler would
    store it. *)
Theorem composer_sends_iff (f : Form) (req : CreateBody) (now : N) (st : Server.Store) :
  (handleSubmit f = NoRequest
   ↔ Written.every Js.isWhiteSpace (newConfession f) = true
     ∨ (String.length (newConfession f) < 5)%nat)
  ∧ (handleSubmit f ≠ NoRequest →
     match viewMode f with
     | supabase => handleSubmit f = PostMessage (newConfession f)
     | local => ∃ b, handleSubmit f = PostConfession b
                     ∧ b_content b = Some (newConfession f)
     end)
  ∧ (Written.every Js.isWhiteSpace (newConfession f) = true →
     (5 ≤ String.length (newConfession f))%nat →
     b_content req = Some (newConfession f) →
     handleSubmit f = NoRequest ∧ submitDisabled false f = false
     ∧ status (Server.post_confession Server.Runs now req st).1 = 201).
Proof.
  assert (handleSubmit f = NoRequest
          ↔ Written.every Js.isWhiteSpace (newConfession f) = true
            ∨ (String.length (newConfession f) < 5)%nat) as Hiff.
  { unfold handleSubmit. rewrite <- trim_empty.
    destruct (String.eqb_spec (trim (newConfession f)) "") as [Ht|Ht]; simpl.
    - split; [by left | done].
    - destruct (Nat.ltb_spec (String.length (newConfession f)) 5).
      + split; [by right | done].
      + split; [by destruct (viewMode f) | intros [?|?]; [done | lia]]. }
  split; [exact Hiff|]. split.
  - intros Hsent. unfold handleSubmit in *.
    destruct (String.eqb (trim (newConfession f)) ""
              || (String.length (newConfession f) <? 5)%nat); [done|].
    destruct (viewMode f); [by eexists | done].
  - intros Hws Hlen Hreq. split; [apply Hiff; by left|]. split.
    + unfold submitDisabled. simpl. apply Nat.ltb_ge. lia.
    + unfold Server.post_confession. rewrite Hreq.
      destruct (String.eqb (newConfession f) ""
                || (String.length (newConfession f) <? 5)%nat) eqn:Htest; [|done].
      apply short_test in Htest. lia.
Qed.

End composer.

Section composer_to_store.

Import Composer.

Lemma composer_sends_iff_witness :
  handleSubmit Case.blank_form = NoRequest
  ∧ submitDisabled false Case.blank_form = false
  ∧ status (Server.post_confession Server.Runs 10 (Sample.body_of (Some "      ") None)
              Sample.empty).1 = 201.
Proof.
  apply (proj2 (proj2 (composer_sends_iff Case.blank_form
                         (Sample.body_of (Some "      ") None) 10 Sample.empty)));
    [reflexivity | simpl; lia | reflexivity].
Defined.

(** X10.  What the composer sends in the local view is never answered 400,
    and when the statement runs it is stored as typed: the row has the text
    and the selected category (["General"] if none), the recipient, sender,
    feeling and song of the form, each [NULL] where the form has the empty
    text; its song cell is shown exactly when the song field is not empty;
    and the form then has its text, recipient, sender and song cleared and
    keeps the feeling and the category. *)
Theorem submitted_is_stored (f : Form) (b : CreateBody) (e : Server.Engine) (now : N)
    (st : Server.Store) :
  handleSubmit f = PostConfession b →
  status (Server.post_confession e now b st).1 ≠ 400
  ∧ ∃ row,
      Server.post_confession Server.Runs now b st
      = ({| status := 201; body := JId (id row) |},
         {| Server.rows := Server.rows st ++ [row]; Server.seq := id row |})
      ∧ content row = newConfession f
      ∧ category row = (if String.eqb (selectedCategory f) "" then "General"
                        else selectedCategory f)
      ∧ recipient row = Js.or_null (Some (to_recipient f))
      ∧ sender row = Js.or_null (Some (from_sender f))
      ∧ feeling row = Js.or_null (Some (with_feeling f))
      ∧ song row = Js.or_null (Some (with_song f))
      ∧ Feed.songCell row = (if String.eqb (with_song f) "" then None
                             else Some (App.SpotifyPlayer (with_song f)))
      ∧ afterSubmit (Server.post_confession Server.Runs now b st).1 f
        = {| newConfession := ""; to_recipient := ""; from_sender := "";
             with_feeling := with_feeling f; with_song := "";
             selectedCategory := selectedCategory f; viewMode := local |}.
Proof.
  unfold handleSubmit.
  destruct (String.eqb (trim (newConfession f)) "") eqn:Htrim; [discriminate|]. simpl.
  destruct (Nat.ltb_spec (String.length (newConfession f)) 5) as [|Hlen]; [discriminate|].
  destruct (viewMode f) eqn:Hmode; [|discriminate]. intros [= <-].
  assert (String.eqb (newConfession f) ""
          || (String.length (newConfession f) <? 5)%nat = false) as Htest.
  { destruct (String.eqb (newConfession f) ""
              || (String.length (newConfession f) <? 5)%nat) eqn:Ht; [|done].
    apply short_test in Ht. lia. }
  unfold Server.post_confession. simpl. rewrite Htest. split.
  - by destruct e.
  - simpl. eexists (Build_Confession (Server.next_id st) _ _ _ _ _ _ _ _).
    split; [reflexivity|]. simpl.
    unfold afterSubmit. simpl. rewrite Hmode.
    repeat split. unfold Feed.songCell. simpl.
    destruct (String.eqb (with_song f) "") eqn:Hsong; [done|]. by rewrite Hsong.
Qed.

Lemma submitted_is_stored_witness :
  ∃ row, Server.rows (Server.post_confession Server.Runs 40
                        {| b_content := Some "I miss you so much";
                           b_category := Some "Love"; b_recipient := Some "";
                           b_sender := Some "me"; b_feeling := Some "Happy";
                           b_song := Some "https://open.spotify.com/track/abc123" |}
                        Sample.store).2
         = Server.rows Sample.store ++ [row]
    ∧ recipient row = None
    ∧ Feed.songCell row
      = Some (App.EmbeddedPlayer
                "https://open.spotify.com/embed/track/abc123?utm_source=generator&theme=0").
Proof.
  destruct (submitted_is_stored Case.form _ Server.Runs 40 Sample.store eq_refl)
    as (_ & row & Hpost & _ & _ & Hrec & _ & _ & _ & Hcell & _).
  exists row. split; [|split; [exact Hrec | exact Hcell]].
  change (Server.post_confession Server.Runs 40 _ Sample.store)
    with (Server.post_confession Server.Runs 40
            {| b_content := Some (newConfession Case.form);
               b_category := Some (selectedCategory Case.form);
               b_recipient := Some (to_recipient Case.form);
               b_sender := Some (from_sender Case.form);
               b_feeling := Some (with_feeling Case.form);
               b_song := Some (with_song Case.form) |} Sample.store).
  by rewrite Hpost.
Defined.

End composer_to_store.

(** ** The mood summary *)

Section mood.

Import Feed.

(** X11.  [analyzeMood] does nothing on an empty feed.  On any other feed it
    sends one prompt, which is built from the first ten confessions only,
    and leaves a mood text that is never empty: the text of the answer when
    it has one that is not empty, ["The campus is quiet today."] when the
    answer has no text or an empty one, and ["Unable to sense the mood
    right now."] when the call throws. *)
Theorem mood_is_never_empty (g : Generated) (c : Confession) (cs : list Confession)
    (mood : option string) :
  analyzeMood g [] mood = (None, mood)
  ∧ (analyzeMood g (c :: cs) mood).1 = Some (mood_prompt (take 10 (c :: cs)))
  ∧ (analyzeMood g (c :: cs) mood).2
    = Some (match g with
            | Text (Some t) => if String.eqb t "" then "The campus is quiet today." else t
            | Text None => "The campus is quiet today."
            | GenerateThrows => "Unable to sense the mood right now."
            end)
  ∧ (analyzeMood g (c :: cs) mood).2 ≠ Some "".
Proof.
  split; [done|]. split.
  - unfold analyzeMood, mood_prompt. by rewrite take_take.
  - split; [by destruct g as [[t|]|]|].
    destruct g as [[t|]|]; simpl; [|done|done].
    destruct (String.eqb_spec t ""); [done | congruence].
Qed.

End mood.

(** ** The mirror: create, edge cases of like, status *)

Section mirror_more.

Import Mirror MirrorMore.

Lemma filter_none_hit ident (table : list Message) :
  Forall (λ m, msg_id m ≠ ident) table →
  filter (λ m, msg_id m = ident) table = []
  ∧ map (λ m, if decide (msg_id m = ident) then set_Like 1 m else m) table = table.
Proof.
  induction 1 as [|m table Hm _ [IH1 IH2]]; [done|]. split.
  - by rewrite filter_cons_False.
  - simpl. rewrite decide_False by done. by f_equal.
Qed.

Lemma update_no_hit v ident (table : list Message) :
  Forall (λ m, msg_id m ≠ ident) table →
  map (λ m, if decide (msg_id m = ident) then set_Like v m else m) table = table.
Proof.
  induction 1 as [|m table Hm _ IH]; [done|].
  simpl. rewrite decide_False by done. by f_equal.
Qed.

(** X12.  The mirror create route stores any text, also an empty or a short
    one: with a client and a service that answers, the response is 201
    with the new row, the row has the text as sent and [Like] 0, and it is
    added after the rows of the table, which are unchanged.  When the
    service reports an error or the call throws, the table is unchanged and
    the answer is 400 or 500 with the message; without a client it is
    503.  A like the client then sends for the new row, whose identifier
    no other row has, finds it and leaves it with [Like] 1. *)
Theorem mirror_create_stores_any_text (env : Env) (u : Upstream) (cached : option Client)
    (fresh : Z) (msg : string) (table : list Message) :
  (is_Some (getSupabase env cached) →
   post_message env u cached fresh msg table
   = match u with
     | Answers =>
         ({| status := 201;
             body := JMessage (Some {| msg_id := fresh; msg_Confession := msg;
                                       msg_Like := 0 |}) |},
          getSupabase env cached,
          table ++ [{| msg_id := fresh; msg_Confession := msg; msg_Like := 0 |}])
     | Rejects m => ({| status := 400; body := JError m |}, getSupabase env cached, table)
     | Raises m => ({| status := 500; body := JError m |}, getSupabase env cached, table)
     end)
  ∧ (getSupabase env cached = None →
     post_message env u cached fresh msg table
     = ({| status := 503; body := JError "Supabase not configured" |}, None, table))
  ∧ (is_Some (getSupabase env cached) → Forall (λ m, msg_id m ≠ fresh) table →
     post_like env Answers (post_message env Answers cached fresh msg table).1.2
       (App.handleSupabaseLike fresh 0).1 (App.handleSupabaseLike fresh 0).2
       (post_message env Answers cached fresh msg table).2
     = ({| status := 200;
           body := JMessage (Some {| msg_id := fresh; msg_Confession := msg;
                                     msg_Like := 1 |}) |},
        getSupabase env cached,
        table ++ [{| msg_id := fresh; msg_Confession := msg; msg_Like := 1 |}])).
Proof.
  unfold post_message. split; [|split].
  - intros [c ->]. by destruct u.
  - by intros ->.
  - intros [c Hc] Hfresh. rewrite Hc. simpl. unfold post_like. simpl.
    rewrite filter_app, !map_app.
    rewrite (proj1 (filter_none_hit fresh table Hfresh)), (update_no_hit _ _ _ Hfresh).
    rewrite filter_cons_True by done. simpl. by rewrite decide_True.
Qed.

Lemma mirror_create_stores_any_text_witness :
  post_message Sample.env Answers None 3 "" Sample.messages
  = ({| status := 201;
        body := JMessage (Some {| msg_id := 3; msg_Confession := ""; msg_Like := 0 |}) |},
     getSupabase Sample.env None,
     Sample.messages ++ [{| msg_id := 3; msg_Confession := ""; msg_Like := 0 |}])
  ∧ post_message Sample.no_env Answers None 3 "hello" Sample.messages
    = ({| status := 503; body := JError "Supabase not configured" |}, None,
       Sample.messages).
Proof.
  split.
  - apply (proj1 (mirror_create_stores_any_text Sample.env Answers None 3 ""
                    Sample.messages)). by eexists.
  - apply (proj2 (mirror_create_stores_any_text Sample.no_env Answers None 3 "hello"
                    Sample.messages)). reflexivity.
Defined.

(** X13.  A mirror like of an identifier no row has is answered 200 with no
    record, and the table is as it was. *)
Theorem mirror_like_unknown_id (env : Env) (cached : option Client) (ident : Z)
    (req : LikeBody) (table : list Message) :
  is_Some (getSupabase env cached) →
  Forall (λ m, msg_id m ≠ ident) table →
  post_like env Answers cached ident req table
  = ({| status := 200; body := JMessage None |}, getSupabase env cached, table).
Proof.
  intros [c Hc] Hnone. unfold post_like. rewrite Hc. simpl.
  rewrite (proj1 (filter_none_hit ident table Hnone)).
  by rewrite update_no_hit.
Qed.

Lemma mirror_like_unknown_id_witness :
  post_like Sample.env Answers None 7 {| currentLikes := Some 3%Z |} Sample.messages
  = ({| status := 200; body := JMessage None |}, getSupabase Sample.env None,
     Sample.messages).
Proof.
  apply (mirror_like_unknown_id Sample.env None 7 {| currentLikes := Some 3%Z |}
           Sample.messages); [by eexists|].
  repeat constructor; discriminate.
Defined.

(** X14.  A mirror like can lower a count: a request without
    [currentLikes], or with 0, leaves 1 in every row with the identifier
    whatever the row held, and a request with a safe integer count whose
    successor is below the stored count leaves that successor, which is
    less than was stored. *)
Theorem mirror_like_can_lower (env : Env) (cached : option Client) (ident : Z)
    (req : LikeBody) (table : list Message) (i : nat) (m : Message) :
  is_Some (getSupabase env cached) →
  table !! i = Some m → msg_id m = ident →
  ∃ m', (post_like env Answers cached ident req table).2 !! i = Some m'
    ∧ ((currentLikes req = None ∨ currentLikes req = Some 0%Z) → msg_Like m' = 1%Z)
    ∧ (∀ n, currentLikes req = Some n → Double.safe n → (n + 1 < msg_Like m)%Z →
         msg_Like m' = (n + 1)%Z ∧ (msg_Like m' < msg_Like m)%Z).
Proof.
  intros [c Hc] Hi Hid. unfold post_like. rewrite Hc. simpl.
  rewrite list_lookup_fmap, Hi. simpl. rewrite decide_True by done.
  eexists. split; [reflexivity|]. simpl. split.
  - by intros [->| ->].
  - intros n -> Hsafe Hlt. rewrite next_Like_safe by done. lia.
Qed.

Lemma mirror_like_can_lower_witness :
  ∃ m', (post_like Sample.env Answers None 1 {| currentLikes := Some 2%Z |}
           Sample.messages).2 !! 0%nat = Some m'
    ∧ (msg_Like m' < 4)%Z.
Proof.
  destruct (mirror_like_can_lower Sample.env None 1 {| currentLikes := Some 2%Z |}
              Sample.messages 0 _ ltac:(by eexists) eq_refl eq_refl)
    as (m' & Hm' & _ & Hlow).
  exists m'. split; [exact Hm'|].
  apply (Hlow 2%Z eq_refl); [unfold Double.safe, Double.limit; lia | simpl; lia].
Defined.

Lemma getSupabase_idemp env cached :
  getSupabase env (getSupabase env cached) = getSupabase env cached.
Proof.
  unfold getSupabase. destruct cached as [c|]; [done|].
  destruct (SUPABASE_URL env) as [u|]; [|done].
  destruct (SUPABASE_ANON_KEY env) as [k|]; [|done].
  by destruct (Js.truthy (Some u) && Js.truthy (Some k)).
Qed.

(** The four handlers, once [getSupabase] has returned. *)
Lemma handlers_agree (env : Env) (u : Upstream) (cached : option Client)
    (ident fresh : Z) (req : LikeBody) (msg : string) (table : list Message) :
  (configured (get_status env cached).1 = false
   ↔ status (get_messages env u cached table).1 = 503)
  ∧ (configured (get_status env cached).1 = false
     ↔ status (post_like env u cached ident req table).1.1 = 503)
  ∧ (configured (get_status env cached).1 = false
     ↔ status (post_message env u cached fresh msg table).1.1 = 503)
  ∧ (get_status env cached).2 = getSupabase env cached
  ∧ (get_messages env u cached table).2 = getSupabase env cached
  ∧ (post_like env u cached ident req table).1.2 = getSupabase env cached
  ∧ (post_message env u cached fresh msg table).1.2 = getSupabase env cached
  ∧ (is_Some cached → getSupabase env cached = cached)
  ∧ (Written.cache_ok env cached →
     (configured (get_status env cached).1 = true
      ↔ url (get_status env cached).1 = "Set" ∧ key (get_status env cached).1 = "Set")).
Proof.
  assert (configured (get_status env cached).1 = false
          ↔ getSupabase env cached = None) as Hcfg.
  { unfold get_status. simpl. destruct (getSupabase env cached).
    - rewrite bool_decide_true by (by eexists). split; discriminate.
    - by rewrite bool_decide_false by apply is_Some_None. }
  rewrite !Hcfg. unfold get_status, get_messages, post_like, post_message. simpl.
  split; [|split; [|split]].
  - destruct (getSupabase env cached); [|done].
    destruct u; split; discriminate.
  - destruct (getSupabase env cached); [|done].
    destruct u; split; discriminate.
  - destruct (getSupabase env cached); [|done].
    destruct u; split; discriminate.
  - split; [done|].
    split; [destruct (getSupabase env cached); [by destruct u | done]|].
    split; [destruct (getSupabase env cached); [by destruct u | done]|].
    split; [destruct (getSupabase env cached); [by destruct u | done]|].
    split; [by intros [c ->]|].
    intros Hok. rewrite bool_decide_eq_true. split.
    + intros Hsome. destruct (getSupabase_cache_ok env cached Hok Hsome) as [-> ->].
      done.
    + intros [Hu Hk]. apply getSupabase_present. split.
      * by destruct (Js.truthy (SUPABASE_URL env)).
      * by destruct (Js.truthy (SUPABASE_ANON_KEY env)).
Qed.


(** X15.  The status route and the data routes of the mirror agree.  When
    [createClient] throws, which needs both credentials and no client held
    yet, none of the four routes answers.  Otherwise all four answer and
    leave the same client behind; [configured] is false exactly when the
    list, like and create routes answer 503; a client once held stays; and,
    a client being held only with credentials present, [configured] is
    true exactly when the URL and the key are both reported as set. *)
Theorem status_agrees_with_routes (k : Route.Create) (env : Env) (u : Upstream)
    (cached : option Client) (ident fresh : Z) (req : LikeBody) (msg : string)
    (table : list Message) :
  match status_route k env cached with
  | Route.Threw =>
      Route.get_messages k env u cached table = Route.Threw
      ∧ Route.post_like k env u cached ident req table = Route.Threw
      ∧ create_route k env u cached fresh msg table = Route.Threw
      ∧ k = Route.CreateThrows ∧ cached = None ∧ Written.credentials_present env
  | Route.Sent (s, client) =>
      ∃ r1 r2 r3 t2 t3,
        Route.get_messages k env u cached table = Route.Sent (r1, client)
        ∧ Route.post_like k env u cached ident req table = Route.Sent (r2, client, t2)
        ∧ create_route k env u cached fresh msg table = Route.Sent (r3, client, t3)
        ∧ (configured s = false ↔ status r1 = 503)
        ∧ (configured s = false ↔ status r2 = 503)
        ∧ (configured s = false ↔ status r3 = 503)
        ∧ (is_Some cached → client = cached)
        ∧ (Written.cache_ok env cached →
           (configured s = true ↔ url s = "Set" ∧ key s = "Set"))
  end.
Proof.
  destruct (handlers_agree env u cached ident fresh req msg table)
    as (H1 & H2 & H3 & Hc0 & Hc1 & Hc2 & Hc3 & Hkeep & Hset).
  assert (status_route k env cached = Route.Sent (get_status env cached)
          → ∃ r1 r2 r3 t2 t3,
              Route.get_messages k env u cached table
              = Route.Sent (r1, (get_status env cached).2)
              ∧ Route.post_like k env u cached ident req table
                = Route.Sent (r2, (get_status env cached).2, t2)
              ∧ create_route k env u cached fresh msg table
                = Route.Sent (r3, (get_status env cached).2, t3)
              ∧ (configured (get_status env cached).1 = false ↔ status r1 = 503)
              ∧ (configured (get_status env cached).1 = false ↔ status r2 = 503)
              ∧ (configured (get_status env cached).1 = false ↔ status r3 = 503)
              ∧ (is_Some cached → (get_status env cached).2 = cached)
              ∧ (Written.cache_ok env cached →
                 (configured (get_status env cached).1 = true
                  ↔ url (get_status env cached).1 = "Set"
                    ∧ key (get_status env cached).1 = "Set"))) as Hsent.
  { unfold status_route, Route.get_messages, Route.post_like, create_route, Route.through.
    intros Hs.
    assert (match k with
            | Route.Builds => false
            | Route.CreateThrows => Route.creates env cached
            end = false) as Hno.
    { destruct k; [done|]. by destruct (Route.creates env cached). }
    exists (get_messages env u cached table).1,
           (post_like env u cached ident req table).1.1,
           (post_message env u cached fresh msg table).1.1,
           (post_like env u cached ident req table).2,
           (post_message env u cached fresh msg table).2.
    rewrite Hc0, <- Hc1 at 1. rewrite <- Hc2 at 1. rewrite <- Hc3 at 1.
    destruct k; simpl in Hno; rewrite ?Hno; repeat split; try tauto;
      try (by destruct (get_messages env u cached table));
      try (by destruct (post_like env u cached ident req table) as [[? ?] ?]);
      try (by destruct (post_message env u cached fresh msg table) as [[? ?] ?]);
      try (by rewrite <- Hc0; apply Hset). }
  unfold status_route, Route.through in *.
  destruct k.
  - destruct (get_status env cached) as [s client] eqn:Hst. by apply Hsent.
  - destruct (Route.creates env cached) eqn:Hcr.
    + unfold Route.get_messages, Route.post_like, create_route, Route.through.
      rewrite Hcr. repeat split; try done; unfold Route.creates in Hcr;
        destruct cached; try done.
      * by destruct (Js.truthy (SUPABASE_URL env)).
      * destruct (Js.truthy (SUPABASE_URL env)); [|done].
        by destruct (Js.truthy (SUPABASE_ANON_KEY env)).
    + destruct (get_status env cached) as [s client] eqn:Hst. by apply Hsent.
Qed.

Lemma status_agrees_with_routes_witness :
  status_route Route.CreateThrows Case.bad_url_env None = Route.Threw
  ∧ Route.get_messages Route.CreateThrows Case.bad_url_env Answers None Sample.messages
    = Route.Threw.
Proof.
  pose proof (status_agrees_with_routes Route.CreateThrows Case.bad_url_env Answers None
                0 0 {| currentLikes := None |} "" Sample.messages) as H.
  split; [reflexivity|]. exact (proj1 H).
Defined.

(** X16.  What the client keeps of a fetch of the mirror feed: when the
    credentials are there and the service answers, the records, and the
    error is cleared; in every other case the records it had and an error
    text, which is the message of the server when that is not empty
    (never the hint) and ["Failed to fetch messages"] when it is, or the
    network error text when the fetch itself fails. *)
Theorem client_fetch_outcomes (env : Env) (u : Upstream) (cached : option Client)
    (table : list Message) (v : View) :
  Written.cache_ok env cached →
  fetchSupabaseMessages None v
  = {| supabaseMessages := supabaseMessages v;
       supabaseError := Some "Network error connecting to server" |}
  ∧ (¬ Written.credentials_present env →
     fetchSupabaseMessages (Some (get_messages env u cached table).1) v
     = {| supabaseMessages := supabaseMessages v;
          supabaseError := Some "Supabase credentials missing in Secrets tab" |})
  ∧ (Written.credentials_present env →
     fetchSupabaseMessages (Some (get_messages env u cached table).1) v
     = match u with
       | Answers => {| supabaseMessages := JMessages table; supabaseError := None |}
       | Rejects m | Raises m =>
           {| supabaseMessages := supabaseMessages v;
              supabaseError := Some (if String.eqb m "" then "Failed to fetch messages"
                                     else m) |}
       end).
Proof.
  intros Hok. split; [done|]. unfold get_messages. split.
  - intros Habs. by rewrite (getSupabase_absent _ _ Hok Habs).
  - intros Hp. destruct (getSupabase_present env cached Hp) as [c ->].
    by destruct u.
Qed.

Lemma client_fetch_outcomes_witness :
  fetchSupabaseMessages
    (Some (get_messages Sample.env (Rejects "") None Sample.messages).1)
    {| supabaseMessages := JMessages []; supabaseError := None |}
  = {| supabaseMessages := JMessages [];
       supabaseError := Some "Failed to fetch messages" |}.
Proof.
  apply (proj2 (proj2 (client_fetch_outcomes Sample.env (Rejects "") None Sample.messages
                         {| supabaseMessages := JMessages []; supabaseError := None |}
                         (cache_ok_start _)))).
  apply sample_env_present.
Defined.

End mirror_more.

(** ** The pieces of a highlighted text *)

Section pieces.

Import App.

Lemma every_snoc cls s c :
  Written.every cls (s +:+ String c "") = Written.every cls s && cls c.
Proof.
  induction s as [|d s IH]; [simpl; by rewrite andb_true_r|].
  rewrite app_cons. simpl. by rewrite IH, andb_assoc.
Qed.

Lemma snoc_not_empty s c : String.eqb (s +:+ String c "") "" = false.
Proof. by destruct s. Qed.

Lemma pieces_ok_split_scan s m piece :
  match m with
  | Js.InWord => Written.every (λ c, negb (Js.isWhiteSpace c)) piece = true
  | Js.InSep => String.eqb piece "" = false ∧ Written.every Js.isWhiteSpace piece = true
  end →
  Shape.pieces_ok m (Js.split_scan m piece s) = true.
Proof.
  revert m piece. induction s as [|c s IH]; intros m piece Hp.
  - destruct m; simpl.
    + by rewrite Hp.
    + destruct Hp as [-> ->]. done.
  - destruct m; simpl; destruct (Js.isWhiteSpace c) eqn:Hc.
    + simpl. rewrite Hp. simpl. apply IH. simpl. by rewrite Hc.
    + apply IH. rewrite every_snoc, Hp, Hc. done.
    + apply IH. destruct Hp as [_ Hp]. split; [apply snoc_not_empty|].
      by rewrite every_snoc, Hp, Hc.
    + simpl. destruct Hp as [-> ->]. simpl. apply IH. simpl. by rewrite Hc.
Qed.

(** X17.  The pieces [HighlightedText] works on are well formed for every
    text: words without white space and non-empty runs of white space
    alternate, and the first and the last piece are words (empty when the
    text starts or ends with white space). *)
Theorem highlight_pieces_alternate (text : string) :
  Shape.pieces_ok Js.InWord (map children (HighlightedText text)) = true.
Proof.
  rewrite children_HighlightedText. by apply pieces_ok_split_scan.
Qed.

Lemma whitespace_char c :
  Js.isWhiteSpace c = true → Js.lowerChar c = c ∧ isPunct c = false.
Proof. destruct c as [[] [] [] [] [] [] [] []]; (discriminate || done). Qed.

Lemma cleanWord_whitespace w :
  Written.every Js.isWhiteSpace w = true → cleanWord w = w.
Proof.
  unfold cleanWord. induction w as [|c w IH]; [done|]. simpl.
  intros [Hc Hw]%andb_prop. destruct (whitespace_char c Hc) as [-> ->].
  by rewrite IH.
Qed.

(** X18.  A piece that is white space only, or empty, is never styled: it
    is shown in a span without a class. *)
Theorem whitespace_is_never_styled (text : string) :
  Forall (λ sp, Written.every Js.isWhiteSpace (children sp) = true → className sp = None)
    (HighlightedText text).
Proof.
  unfold HighlightedText. apply Forall_fmap, Forall_forall. intros w _. simpl.
  rewrite children_renderWord. intros Hw.
  unfold renderWord. rewrite (cleanWord_whitespace w Hw). unfold SPECIAL_WORDS_at.
  destruct (own_entry SPECIAL_WORDS w) as [cls|] eqn:Hown.
  - apply own_entry_elem in Hown.
    assert (Forall (λ e, Written.every Js.isWhiteSpace e.1 = false) SPECIAL_WORDS) as Hall
      by (repeat constructor).
    rewrite Forall_forall in Hall. specialize (Hall _ Hown). simpl in Hall. congruence.
  - case_bool_decide as Hin; [|done].
    assert (Forall (λ k, Written.every Js.isWhiteSpace k = false) Object_prototype) as Hall
      by (repeat constructor).
    rewrite Forall_forall in Hall. specialize (Hall _ Hin). congruence.
Qed.

Lemma whitespace_is_never_styled_witness :
  Forall (λ sp, Written.every Js.isWhiteSpace (children sp) = true → className sp = None)
    (HighlightedText " love  ").
Proof. apply (whitespace_is_never_styled " love  "). Defined.

End pieces.

(** ** Links built from a song text *)

Section links.

Import App Unescape.

Lemma encode_cons c s :
  encodeURIComponent (String c s) = encodeURIComponent (String c "") +:+ encodeURIComponent s.
Proof.
  unfold encodeURIComponent at 1 2; fold encodeURIComponent.
  by rewrite app_empty_r.
Qed.

Lemma unescape_char c rest :
  unescape (encodeURIComponent (String c "") +:+ rest) = String c <$> unescape rest.
Proof. destruct c as [[] [] [] [] [] [] [] []]; reflexivity. Qed.

Lemma escaped_char c :
  Written.every (λ d, isUnreserved d || (Js.code d =? 37)) (encodeURIComponent (String c ""))
  = true.
Proof. destruct c as [[] [] [] [] [] [] [] []]; reflexivity. Qed.

Lemma every_app cls s t :
  Written.every cls (s +:+ t) = Written.every cls s && Written.every cls t.
Proof.
  induction s as [|c s IH]; [done|].
  rewrite app_cons. simpl. by rewrite IH, andb_assoc.
Qed.

Lemma unescape_encode s : unescape (encodeURIComponent s) = Some s.
Proof.
  induction s as [|c s IH]; [done|].
  by rewrite encode_cons, unescape_char, IH.
Qed.

(** X19.  [encodeURIComponent] loses nothing and writes only safe
    characters: the escaped text reads back as the text, so two different
    song texts never give the same search link, and every character of the
    escaped text is a letter, a digit, one of [- _ . ! ~ * ' ( )] or the
    percent sign, so the song text cannot add a slash, a question mark, a
    hash or a space to the link. *)
Theorem encode_is_lossless_and_safe (s t : string) :
  unescape (encodeURIComponent s) = Some s
  ∧ (encodeURIComponent s = encodeURIComponent t → s = t)
  ∧ Written.every (λ d, isUnreserved d || (Js.code d =? 37)) (encodeURIComponent s) = true.
Proof.
  split; [apply unescape_encode|]. split.
  - intros H. pose proof (unescape_encode s) as Hs.
    rewrite H, unescape_encode in Hs. congruence.
  - induction s as [|c s IH]; [done|].
    by rewrite encode_cons, every_app, escaped_char, IH.
Qed.

Lemma encode_is_lossless_and_safe_witness :
  encodeURIComponent "a/b c?" = "a%2Fb%20c%3F" ∧ "a/b c?" = "a/b c?".
Proof.
  split; [reflexivity|].
  apply (proj1 (proj2 (encode_is_lossless_and_safe "a/b c?" "a/b c?"))). reflexivity.
Defined.

(** What follows a greedy run does not start with a character of the
    class. *)
Lemma takeWhile_maximal cls s :
  ∃ after, s = takeWhile cls s +:+ after
    ∧ ∀ c r, after = String c r → cls c = false.
Proof.
  induction s as [|c s (after & IH & Hmax)]; simpl.
  - exists "". split; [done|]. discriminate.
  - destruct (cls c) eqn:Hc.
    + exists after. split; [by rewrite app_cons, <- IH | done].
    + exists (String c s). split; [done|]. by intros c' r [= <- <-].
Qed.

(** X20.  The address of the embedded player is made of the fixed embed
    prefix, the resource kind and the identifier found in the song text,
    and the fixed query, and of nothing else of the text: the kind is
    track, album or playlist, the identifier is the longest run of letters
    and digits after the link, and whatever the text holds before the link
    or after the identifier is dropped. *)
Theorem embed_address_shape (song src : string) :
  SpotifyPlayer song = EmbeddedPlayer src →
  ∃ before kind ident after,
    song = before +:+ prefix_literal +:+ kind +:+ "/" +:+ ident +:+ after
    ∧ kind ∈ kinds ∧ ident ≠ "" ∧ Written.every isAlnum ident = true
    ∧ (∀ c r, after = String c r → isAlnum c = false)
    ∧ src = "https://open.spotify.com/embed/" +:+ kind +:+ "/" +:+ ident
            +:+ "?utm_source=generator&theme=0".
Proof.
  unfold SpotifyPlayer.
  destruct (regex_match song) as [[kind ident]|] eqn:Hm; [|discriminate].
  intros [= <-].
  apply regex_match_Some in Hm as (before & rest & -> & Hm).
  unfold match_here in Hm.
  destruct (strip_prefix prefix_literal rest) as [rest'|] eqn:Hp; [|done].
  apply strip_prefix_Some in Hp as ->.
  apply first_kind_Some in Hm as [Hin Hm].
  unfold match_kind in Hm.
  destruct (strip_prefix (kind +:+ "/") rest') as [rest''|] eqn:Hp; [|done].
  apply strip_prefix_Some in Hp as ->.
  destruct (String.eqb_spec (takeWhile isAlnum rest'') "") as [|Hne]; [done|].
  injection Hm as <-.
  destruct (takeWhile_maximal isAlnum rest'') as (after & Hafter & Hmax).
  exists before, kind, (takeWhile isAlnum rest''), after.
  split; [by rewrite app_assoc_str, <- Hafter|].
  split; [done|]. split; [done|]. split; [apply takeWhile_every|]. by split.
Qed.

Lemma embed_address_shape_witness :
  ∃ before kind ident after,
    "my song https://open.spotify.com/track/abc123?si=<script>"
    = before +:+ prefix_literal +:+ kind +:+ "/" +:+ ident +:+ after
    ∧ kind ∈ kinds ∧ ident ≠ "" ∧ Written.every isAlnum ident = true
    ∧ (∀ c r, after = String c r → isAlnum c = false)
    ∧ "https://open.spotify.com/embed/track/abc123?utm_source=generator&theme=0"
      = "https://open.spotify.com/embed/" +:+ kind +:+ "/" +:+ ident
        +:+ "?utm_source=generator&theme=0".
Proof.
  apply (embed_address_shape "my song https://open.spotify.com/track/abc123?si=<script>").
  reflexivity.
Defined.

End links.

(** ** The music service bridge *)

Section bridge.

Import Auth Unescape.

(** X21.  The top tracks route answers 401 exactly when the status route
    reports that the session is not connected. *)
Theorem top_tracks_401_iff_not_connected (t : Tracks) (session : Session) :
  (top_tracks t session).1 = 401 ↔ (auth_status session).2 = Connected false.
Proof.
  unfold top_tracks, auth_status. simpl.
  destruct (Js.truthy session); [|done].
  destruct t; split; discriminate.
Qed.





Lemma occurrences_app c s t :
  occurrences c (s +:+ t) = (occurrences c s + occurrences c t)%nat.
Proof.
  induction s as [|d s IH]; [done|].
  rewrite app_cons. simpl. rewrite IH. lia.
Qed.

Lemma formEncode_cons c s :
  formEncode (String c s) = formEncode (String c "") +:+ formEncode s.
Proof.
  unfold formEncode at 1 2; fold formEncode. by rewrite app_empty_r.
Qed.

Lemma formEncode_char_clean x c :
  structural x = true → occurrences x (formEncode (String c "")) = 0%nat.
Proof.
  intros Hx. apply bool_decide_eq_true in Hx.
  repeat (apply elem_of_cons in Hx as [->|Hx];
          [destruct c as [[] [] [] [] [] [] [] []]; reflexivity|]).
  by apply elem_of_nil in Hx.
Qed.

Lemma formEncode_clean x s : structural x = true → occurrences x (formEncode s) = 0%nat.
Proof.
  intros Hx. induction s as [|c s IH]; [done|].
  by rewrite formEncode_cons, occurrences_app, formEncode_char_clean, IH.
Qed.

(** X23.  Whatever the client identifier and the application URL of the
    environment hold, the authorization address has the four parameters
    [response_type], [client_id], [scope] and [redirect_uri] in this order
    and nothing else: the escaped values hold no [&], [=], [?], [#], space,
    slash or colon, so the query has exactly three [&] and four [=]. *)
Theorem authorize_url_shape (env : Env) (x : ascii) :
  authorize_url env
  = "https://accounts.spotify.com/authorize?response_type=code&client_id="
    +:+ formEncode (Js.or_text (SPOTIFY_CLIENT_ID env) "")
    +:+ "&scope=user-top-read+user-read-private+user-read-email&redirect_uri="
    +:+ formEncode (redirect_uri env)
  ∧ occurrences "&" (toString (params env)) = 3%nat
  ∧ occurrences "=" (toString (params env)) = 4%nat
  ∧ (structural x = true →
     occurrences x (formEncode (Js.or_text (SPOTIFY_CLIENT_ID env) "")) = 0%nat
     ∧ occurrences x (formEncode (redirect_uri env)) = 0%nat).
Proof.
  assert (toString (params env)
          = "response_type=code&client_id="
            +:+ formEncode (Js.or_text (SPOTIFY_CLIENT_ID env) "")
            +:+ "&scope=user-top-read+user-read-private+user-read-email&redirect_uri="
            +:+ formEncode (redirect_uri env)) as Hq.
  { unfold toString, params, pair. simpl.
    rewrite !app_assoc_str, ?app_empty_r. reflexivity. }
  split; [unfold authorize_url; by rewrite Hq|].
  rewrite Hq, !occurrences_app, !formEncode_clean by done.
  split; [done|]. split; [done|]. intros Hx. by rewrite !formEncode_clean.
Qed.

Lemma authorize_url_shape_witness :
  authorize_url Case.auth_env
  = "https://accounts.spotify.com/authorize?response_type=code&client_id=client%26id%3D1&scope=user-top-read+user-read-private+user-read-email&redirect_uri=https%3A%2F%2Fwhisper.example%2Fauth%2Fspotify%2Fcallback"
  ∧ occurrences "&" (formEncode "client&id=1") = 0%nat.
Proof.
  split; [reflexivity|].
  apply (proj2 (proj2 (proj2 (authorize_url_shape Case.auth_env "&")))). reflexivity.
Defined.

End bridge.

(** ** Startup *)

Section startup.

Import Startup.

Lemma migrate_missing cols extra name :
  no_case_variant cols → name ∈ added_columns →
  Forall (λ e, nocase e ≠ nocase name) extra →
  migrate cols name (Some (cols ++ extra))
  = Some (cols ++ extra ++ if decide (name ∈ cols) then [] else [name]).
Proof.
  intros Hcols Hname Hextra. unfold migrate.
  case_bool_decide as Hin.
  - rewrite decide_True by done. by rewrite app_nil_r.
  - rewrite decide_False by done. unfold add_column.
    rewrite bool_decide_false; [by rewrite app_assoc|].
    intros Hdup. apply list_elem_of_fmap in Hdup as (c & Heq & Hc).
    apply elem_of_app in Hc as [Hc|Hc].
    + apply Hin. by rewrite <- (Hcols c name Hc Hname).
    + rewrite Forall_forall in Hextra. by apply (Hextra c Hc).
Qed.

(** The columns the migrations add to a table with the columns [cols]. *)
Lemma startup_adds cols :
  no_case_variant cols →
  startup (Some cols)
  = Some (cols ++ (if decide ("recipient" ∈ cols) then [] else ["recipient"])
               ++ (if decide ("sender" ∈ cols) then [] else ["sender"])
               ++ (if decide ("feeling" ∈ cols) then [] else ["feeling"])
               ++ (if decide ("song" ∈ cols) then [] else ["song"])).
Proof.
  intros Hcols. unfold startup, create_table.
  cut (∀ t, t = Some (cols ++ []) →
         migrate cols "song"
           (migrate cols "feeling" (migrate cols "sender" (migrate cols "recipient" t)))
         = Some (cols ++ (if decide ("recipient" ∈ cols) then [] else ["recipient"])
                      ++ (if decide ("sender" ∈ cols) then [] else ["sender"])
                      ++ (if decide ("feeling" ∈ cols) then [] else ["feeling"])
                      ++ (if decide ("song" ∈ cols) then [] else ["song"]))).
  { intros H. apply H. by rewrite app_nil_r. }
  intros t ->.
  rewrite (migrate_missing cols [] "recipient") by (done || (repeat constructor)).
  rewrite (migrate_missing cols _ "sender");
    [|done | repeat constructor | repeat case_decide; repeat constructor; discriminate].
  rewrite (migrate_missing cols _ "feeling");
    [|done | repeat constructor | repeat case_decide; repeat constructor; discriminate].
  rewrite (migrate_missing cols _ "song");
    [|done | repeat constructor | repeat case_decide; repeat constructor; discriminate].
  by rewrite <- !app_assoc.
Qed.

Lemma startup_complete cols :
  Forall (λ name, name ∈ cols) added_columns → startup (Some cols) = Some cols.
Proof.
  intros H. rewrite Forall_forall in H.
  unfold startup, migrate. simpl.
  rewrite !bool_decide_true; [done|..]; apply H; repeat constructor.
Qed.

(** X24.  The statements run at startup bring the table up to date and can
    be run again: on a database without the table they create it with the
    nine columns; on a table none of whose columns is one of the four added
    names in another letter case they succeed, keep the columns the table
    has in their order, add after them exactly those of [recipient],
    [sender], [feeling] and [song] that are missing, and running them again
    on the result changes nothing.  A table that has one of the four names
    only in another letter case makes them throw. *)
Theorem startup_migrates_once (cols : list string) (name c : string) :
  startup None
  = Some ["id"; "content"; "category"; "timestamp"; "likes";
          "recipient"; "sender"; "feeling"; "song"]
  ∧ (no_case_variant cols →
     ∃ cols', startup (Some cols) = Some cols'
       ∧ cols' = cols ++ filter (λ n, n ∉ cols) added_columns
       ∧ Forall (λ n, n ∈ cols') added_columns
       ∧ startup (Some cols') = Some cols')
  ∧ (name ∈ added_columns → name ∉ cols → c ∈ cols → nocase c = nocase name →
     startup (Some cols) = None).
Proof.
  split; [reflexivity|]. split.
  - intros Hcols. eexists. split; [by apply startup_adds|].
    assert (cols ++ (if decide ("recipient" ∈ cols) then [] else ["recipient"])
                 ++ (if decide ("sender" ∈ cols) then [] else ["sender"])
                 ++ (if decide ("feeling" ∈ cols) then [] else ["feeling"])
                 ++ (if decide ("song" ∈ cols) then [] else ["song"])
            = cols ++ filter (λ n, n ∉ cols) added_columns) as ->.
    { unfold added_columns. rewrite !filter_cons, filter_nil.
      repeat case_decide; try done; simpl; reflexivity. }
    split; [done|].
    assert (Forall (λ n, n ∈ cols ++ filter (λ n, n ∉ cols) added_columns)
              added_columns) as Hall.
    { apply Forall_forall. intros n Hn. apply elem_of_app.
      destruct (decide (n ∈ cols)); [by left|]. right.
      by apply list_elem_of_filter. }
    split; [done | by apply startup_complete].
  - intros Hname Hmiss Hc Heq.
    assert (nocase name ∈ map nocase cols) as Hdup.
    { apply list_elem_of_fmap. by exists c. }
    assert (∀ extra, add_column name (cols ++ extra) = None) as Hadd.
    { intros extra. unfold add_column. rewrite bool_decide_true; [done|].
      rewrite map_app. apply elem_of_app. by left. }
    unfold startup, create_table.
    assert (∀ n t, (∃ extra, t = Some (cols ++ extra)) ∨ t = None →
                   (∃ extra, migrate cols n t = Some (cols ++ extra))
                   ∨ migrate cols n t = None) as Hstep.
    { intros n t [[extra ->]| ->]; [|by right]. unfold migrate.
      case_bool_decide; [left; by exists extra|].
      unfold add_column. case_bool_decide; [by right|].
      left. exists (extra ++ [n]). by rewrite app_assoc. }
    assert (∀ t, (∃ extra, t = Some (cols ++ extra)) ∨ t = None →
                 migrate cols name t = None) as Hfail.
    { intros t [[extra ->]| ->]; [|done]. unfold migrate.
      rewrite bool_decide_false by done. apply Hadd. }
    assert (∀ n t, t = None → migrate cols n t = None) as Hnone by (by intros n t ->).
    assert ((∃ extra, Some cols = Some (cols ++ extra)) ∨ Some cols = None) as H0.
    { left. exists []. by rewrite app_nil_r. }
    unfold added_columns in Hname.
    repeat (apply elem_of_cons in Hname as [->|Hname]);
      [..|by apply elem_of_nil in Hname].
    + do 3 apply Hnone. by apply Hfail.
    + do 2 apply Hnone. apply Hfail. by apply Hstep.
    + apply Hnone. apply Hfail. by do 2 apply Hstep.
    + apply Hfail. by do 3 apply Hstep.
Qed.

Lemma startup_migrates_once_witness :
  (∃ cols', startup (Some ["id"; "content"; "category"; "timestamp"; "likes"; "sender"])
            = Some cols'
     ∧ cols' = ["id"; "content"; "category"; "timestamp"; "likes"; "sender"]
               ++ filter (λ n, n ∉ ["id"; "content"; "category"; "timestamp"; "likes";
                                    "sender"]) added_columns
     ∧ Forall (λ n, n ∈ cols') added_columns
     ∧ startup (Some cols') = Some cols')
  ∧ startup (Some ["id"; "content"; "Song"]) = None.
Proof.
  split.
  - apply (proj1 (proj2 (startup_migrates_once
                           ["id"; "content"; "category"; "timestamp"; "likes"; "sender"]
                           "" ""))).
    intros c n Hc Hn.
    repeat (apply elem_of_cons in Hc as [->|Hc]);
      [..|by apply elem_of_nil in Hc];
      (repeat (apply elem_of_cons in Hn as [->|Hn]);
       [..|by apply elem_of_nil in Hn]); (discriminate || done).
  - apply (proj2 (proj2 (startup_migrates_once ["id"; "content"; "Song"] "song" "Song")));
      [by repeat constructor | | by repeat constructor | reflexivity].
    intros H. repeat (apply elem_of_cons in H as [H|H]; [discriminate H|]).
    by apply elem_of_nil in H.
Defined.

End startup.
